(** * NetworkManager DHCP subsystem: option decoding, classless routes,
      and the DHCP manager's client registry.

    Shallow embedding of
      - src/dhcp-manager/nm-dhcp-dhcpcd.c   (real_ip4_process_classless_routes)
      - src/dhcp-manager/nm-dhcp-manager.c  (garray_to_string, get_option,
        nm_dhcp_manager_handle_event, nm_dhcp_manager_new, add_client,
        remove_client, client_state_changed, client_timeout,
        nm_dhcp_manager_start_client, dispose)
    together with the C library and GLib routines these functions call. *)

From Stdlib Require Import ZArith List String Ascii Bool Lia.
From stdpp Require Import base option list gmap strings.

Local Open Scope Z_scope.

(** ** The C library routines used by the DHCP code *)

Module Libc.

(** Width of [long]: 32 bits on ILP32 targets, 64 bits on LP64 ones. *)
Inductive DataModel := ILP32 | LP64.

(** What the program cannot know about the C library it is linked with.
    [noconv_einval] says whether strtol/strtoul set errno to EINVAL when
    no digit could be converted (POSIX allows both; glibc does not). *)
Record Platform := {
  data_model : DataModel;
  noconv_einval : bool
}.

Definition glibc64 : Platform := {| data_model := LP64; noconv_einval := false |}.

Definition long_bits (P : Platform) : Z :=
  match data_model P with ILP32 => 32 | LP64 => 64 end.

Definition LONG_MAX (P : Platform) : Z := 2 ^ (long_bits P - 1) - 1.
Definition LONG_MIN (P : Platform) : Z := - 2 ^ (long_bits P - 1).
Definition ULONG_MAX (P : Platform) : Z := 2 ^ long_bits P - 1.

Definition EINVAL : Z := 22.
Definition ERANGE : Z := 34.

(** Conversion of an integer value to [int] (32 bits, two's complement). *)
Definition to_int (z : Z) : Z := (z + 2 ^ 31) mod 2 ^ 32 - 2 ^ 31.

(** Conversion of an integer value to a 32-bit unsigned type. *)
Definition to_uint32 (z : Z) : Z := z mod 2 ^ 32.

Definition code (c : ascii) : Z := Z.of_nat (nat_of_ascii c).

(** isspace in the C locale: space, \t, \n, \v, \f, \r. *)
Definition isspace (c : ascii) : bool :=
  (code c =? 32) || ((9 <=? code c) && (code c <=? 13)).

Definition digit_of (c : ascii) : option Z :=
  if (48 <=? code c) && (code c <=? 57) then Some (code c - 48) else None.

Fixpoint skip_space (s : string) : string :=
  match s with
  | String c rest => if isspace c then skip_space rest else s
  | EmptyString => s
  end.

(** Optional sign: returns whether the number is negated, and the rest. *)
Definition take_sign (s : string) : bool * string :=
  match s with
  | String "-"%char rest => (true, rest)
  | String "+"%char rest => (false, rest)
  | _ => (false, s)
  end.

(** The mathematical value of the longest prefix of decimal digits;
    [None] when the subject sequence is empty. *)
Fixpoint digits_from (s : string) (acc : option Z) : option Z :=
  match s with
  | String c rest =>
      match digit_of c with
      | Some d => digits_from rest (Some (default 0 acc * 10 + d))
      | None => acc
      end
  | EmptyString => acc
  end.

Definition subject (s : string) : bool * option Z :=
  let (neg, rest) := take_sign (skip_space s) in (neg, digits_from rest None).

(** strtol (s, NULL, 10).  Takes the current errno, returns the value and
    the errno after the call. *)
Definition strtol (P : Platform) (s : string) (errno : Z) : Z * Z :=
  match subject s with
  | (_, None) => (0, if noconv_einval P then EINVAL else errno)
  | (neg, Some v) =>
      let sv := if neg then - v else v in
      if sv >? LONG_MAX P then (LONG_MAX P, ERANGE)
      else if sv <? LONG_MIN P then (LONG_MIN P, ERANGE)
      else (sv, errno)
  end.

(** strtoul (s, NULL, 10).  A leading minus sign negates the converted
    value in the unsigned type. *)
Definition strtoul (P : Platform) (s : string) (errno : Z) : Z * Z :=
  match subject s with
  | (_, None) => (0, if noconv_einval P then EINVAL else errno)
  | (neg, Some v) =>
      if v >? ULONG_MAX P then (ULONG_MAX P, ERANGE)
      else ((if neg then (- v) mod 2 ^ long_bits P else v), errno)
  end.

(** strchr (s, c) followed by writing a NUL over the match: the text before
    the first occurrence and the text after it. *)
Fixpoint strchr_cut (s : string) (c : ascii) : option (string * string) :=
  match s with
  | EmptyString => None
  | String a rest =>
      if Ascii.eqb a c then Some (EmptyString, rest)
      else match strchr_cut rest c with
           | Some (before, after) => Some (String a before, after)
           | None => None
           end
  end.

(** inet_pton (AF_INET, src, dst): the scanner of dotted-decimal text.
    [done] are the octets already completed, [tp] the octet being read,
    [octets] the number of octets started. *)
Fixpoint inet_pton4 (src : string) (done : list Z) (tp : Z)
         (saw_digit : bool) (octets : Z) : option (list Z) :=
  match src with
  | EmptyString => if octets <? 4 then None else Some (done ++ [tp])
  | String ch rest =>
      match digit_of ch with
      | Some d =>
          let new := tp * 10 + d in
          if saw_digit && (tp =? 0) then None
          else if new >? 255 then None
          else if saw_digit then inet_pton4 rest done new true octets
          else if octets + 1 >? 4 then None
          else inet_pton4 rest done new true (octets + 1)
      | None =>
          if Ascii.eqb ch "."%char && saw_digit then
            if octets =? 4 then None
            else inet_pton4 rest (done ++ [tp]) 0 false octets
          else None
      end
  end.

(** The four octets in memory order read as one number; this is what
    [s_addr] holds in network byte order.  It is 0 exactly when all four
    octets are 0, whatever the host byte order. *)
Definition s_addr_of (octs : list Z) : Z :=
  fold_left (fun acc o => acc * 256 + o) octs 0.

Definition inet_pton (src : string) : option Z :=
  s_addr_of <$> inet_pton4 src [] 0 false 0.

End Libc.

(** ** GLib string helpers *)

Module GLib.

(** The pieces of [s] between occurrences of the one-character delimiter
    [d], for a non-empty [s]. *)
Fixpoint split_on (d : ascii) (s : string) : list string :=
  match s with
  | EmptyString => [EmptyString]
  | String c rest =>
      if Ascii.eqb c d then EmptyString :: split_on d rest
      else match split_on d rest with
           | tok :: toks => String c tok :: toks
           | [] => [String c EmptyString]
           end
  end.

(** g_strsplit (s, d, 0) for a one-character delimiter: the empty string
    gives the empty vector, any other string one token more than it has
    delimiters (max_tokens 0 stands for G_MAXINT tokens, a bound no option
    text reaches). *)
Definition g_strsplit (s : string) (d : ascii) : list string :=
  match s with
  | EmptyString => []
  | _ => split_on d s
  end.

Definition g_strv_length (v : list string) : Z := Z.of_nat (List.length v).

End GLib.

Import Libc GLib.

(** ** dhcpcd back-end: RFC 3442 classless static routes *)

Module Dhcpcd.

(** Modelled from the spec: NMIP4Route is declared outside this excerpt; a
    route is a destination address, a prefix length and a next hop. *)
Record NMIP4Route := {
  route_dest : Z;
  route_prefix : Z;
  route_next_hop : Z
}.

(** Modelled from the spec: NMIP4Config is declared outside this excerpt;
    of the configuration only the ordered route list matters here. *)
Record NMIP4Config := { config_routes : list NMIP4Route }.

(** Modelled from the spec: nm_ip4_config_take_route is defined outside
    this excerpt; the route goes to the end of the ordered list. *)
Definition nm_ip4_config_take_route (cfg : NMIP4Config) (r : NMIP4Route) : NMIP4Config :=
  {| config_routes := config_routes cfg ++ [r] |}.

(** Modelled from the spec: nm_ip4_route_new and the three setters are
    defined outside this excerpt; a new route is all zero and a setter
    records the guint32 it is handed, so a route shows what the function
    passed on for it. *)
Definition nm_ip4_route_new : NMIP4Route :=
  {| route_dest := 0; route_prefix := 0; route_next_hop := 0 |}.

Definition nm_ip4_route_set_dest (r : NMIP4Route) (d : Z) : NMIP4Route :=
  {| route_dest := d; route_prefix := route_prefix r; route_next_hop := route_next_hop r |}.

Definition nm_ip4_route_set_prefix (r : NMIP4Route) (p : Z) : NMIP4Route :=
  {| route_dest := route_dest r; route_prefix := p; route_next_hop := route_next_hop r |}.

Definition nm_ip4_route_set_next_hop (r : NMIP4Route) (h : Z) : NMIP4Route :=
  {| route_dest := route_dest r; route_prefix := route_prefix r; route_next_hop := h |}.

(** Messages written by the function, in order. *)
Inductive LogEntry :=
| InfoRoutesInvalid
| WarnInvalidCidr (text : string)
| WarnInvalidAddress (text : string)
| WarnInvalidGateway (text : string)
| InfoRoute (dst : string) (cidr : Z) (gw : string).

(** Everything the function reads and writes besides its return value:
    the configuration, the caller's gwaddr cell, and the log. *)
Record State := {
  have_routes : bool;
  ip4_config : NMIP4Config;
  gwaddr : Z;
  log : list LogEntry
}.

Definition say (st : State) (e : LogEntry) : State :=
  {| have_routes := have_routes st; ip4_config := ip4_config st;
     gwaddr := gwaddr st; log := log st ++ [e] |}.

(** The destination token: address text (after the slash was overwritten
    with NUL) and either the prefix or the rejected cidr text. *)
Definition read_cidr (P : Platform) (r0 : string) : string * (Z + string) :=
  match strchr_cut r0 "/"%char with
  | Some (addr, cidr) =>
      let (v, errno) := strtol P cidr 0 in
      if (errno =? EINVAL) || (errno =? ERANGE) then (addr, inr cidr)
      else (addr, inl (to_int v))
  | None => (r0, inl 32)
  end.

(** One turn of the loop body on the pair [r0], [r1]. *)
Definition route_pair (P : Platform) (st : State) (r0 r1 : string) : State :=
  match read_cidr P r0 with
  | (_, inr cidr) => say st (WarnInvalidCidr cidr)
  | (addr, inl rt_cidr) =>
      match inet_pton addr with
      | None => say st (WarnInvalidAddress addr)
      | Some rt_addr =>
          match inet_pton r1 with
          | None => say st (WarnInvalidGateway r1)
          | Some rt_route =>
              if (rt_cidr =? 0) && (rt_addr =? 0) then
                {| have_routes := true; ip4_config := ip4_config st;
                   gwaddr := rt_addr; log := log st |}
              else
                let route := nm_ip4_route_new in
                let route := nm_ip4_route_set_dest route (to_uint32 rt_addr) in
                let route := nm_ip4_route_set_prefix route (to_uint32 rt_cidr) in
                let route := nm_ip4_route_set_next_hop route (to_uint32 rt_route) in
                {| have_routes := true;
                   ip4_config := nm_ip4_config_take_route (ip4_config st) route;
                   gwaddr := gwaddr st;
                   log := log st ++ [InfoRoute addr rt_cidr r1] |}
          end
      end
  end.

(** for (r = routes; *r; r += 2).  The vector has even length when the
    loop is entered; the one-token case is never reached. *)
Fixpoint route_loop (P : Platform) (r : list string) (st : State) : State :=
  match r with
  | r0 :: r1 :: rest => route_loop P rest (route_pair P st r0 r1)
  | _ => st
  end.

Definition lookup_routes_option (options : gmap string string) : option string :=
  match options !! "new_classless_static_routes"%string with
  | Some str => Some str
  | None => options !! "new_ms_classless_static_routes"%string
  end.

(** On entry: have_routes = FALSE, the caller's configuration and gwaddr
    cell as they are, nothing logged yet. *)
Definition on_entry (cfg : NMIP4Config) (gw : Z) : State :=
  {| have_routes := false; ip4_config := cfg; gwaddr := gw; log := [] |}.

Definition real_ip4_process_classless_routes (P : Platform)
    (options : gmap string string) (cfg : NMIP4Config) (gw : Z) : State :=
  let st := on_entry cfg gw in
  match lookup_routes_option options with
  | None => st
  | Some str =>
      if (String.length str =? 0)%nat then st
      else
        let routes := g_strsplit str " "%char in
        if g_strv_length routes =? 0 then st
        else if negb (g_strv_length routes mod 2 =? 0) then say st InfoRoutesInvalid
        else route_loop P routes st
  end.

End Dhcpcd.

(** ** The DHCP manager *)

Module Manager.

Inductive GType := NM_TYPE_DHCP_DHCLIENT | NM_TYPE_DHCP_DHCPCD.

(** Modelled from the spec: the NMDHCPState enumeration is declared in
    nm-dhcp-client.h, which is not part of this excerpt; these are the
    states the specification lists. *)
Inductive NMDHCPState :=
| DHC_PREINIT | DHC_BOUND | DHC_RENEW | DHC_REBIND | DHC_REBOOT
| DHC_RELEASE | DHC_EXPIRE | DHC_FAIL | DHC_TIMEOUT | DHC_ABEND | DHC_END.

Inductive LeaseReader :=
| nm_dhcp_dhclient_get_lease_config
| nm_dhcp_dhcpcd_get_lease_config.

(** What the manager reads from a client object: its GObject type, the
    construct-only interface property, and the helper's pid (0 until the
    helper is spawned). *)
Record NMDHCPClient := {
  client_gtype : GType;
  client_iface : string;
  client_pid : Z
}.

(** NMDHCPManagerPrivate.  [clients] is the GHashTable keyed by the client
    pointer (g_direct_hash); an address is a [positive].  The hostname
    provider is NULL or an object whose current hostname is recorded. *)
Record NMDHCPManagerPrivate := {
  client_type : GType;
  get_lease_config_func : LeaseReader;
  clients : gmap positive NMDHCPClient;
  hostname_provider : option string
}.

Definition with_clients (m : NMDHCPManagerPrivate)
    (cl : gmap positive NMDHCPClient) : NMDHCPManagerPrivate :=
  {| client_type := client_type m;
     get_lease_config_func := get_lease_config_func m;
     clients := cl;
     hostname_provider := hostname_provider m |}.

(** *** Option decoding *)

Definition g_string_sized_new (dfl_size : nat) : list Z := [].
Definition g_string_append_c (str : list Z) (c : Z) : list Z := str ++ [c].

(** The body of the for loop: c = array->data[i] read into an unsigned
    char, NUL turned into a space, anything above 127 into '?'. *)
Definition convert (raw : Z) : Z :=
  let c := raw mod 256 in
  if c =? 0 then 32 else if c >? 127 then 63 else c.

Fixpoint append_converted (data : list Z) (str : list Z) : list Z :=
  match data with
  | [] => str
  | raw :: rest => append_converted rest (g_string_append_c str (convert raw))
  end.

(** garray_to_string.  The argument is the GArray pointer (NULL or the
    array's bytes); the result is the buffer handed back, explicit
    terminator included.  The UTF-8 warning does not change the result. *)
Definition garray_to_string (array : option (list Z)) (key : string) : option (list Z) :=
  match array with
  | None => None
  | Some data =>
      let str := g_string_sized_new (List.length data) in
      let str := append_converted data str in
      Some (g_string_append_c str 0)
  end.

(** A GValue of the options table: a boxed byte array (the boxed pointer
    may be NULL) or a value of some other type. *)
Inductive GValue :=
| UCharArray (boxed : option (list Z))
| OtherType.

Definition get_option (hash : gmap string GValue) (key : string) : option (list Z) :=
  match hash !! key with
  | None => None
  | Some OtherType => None
  | Some (UCharArray boxed) => garray_to_string boxed key
  end.

(** The C string a buffer holds: the characters before the first NUL. *)
Fixpoint c_str (buf : list Z) : string :=
  match buf with
  | [] => EmptyString
  | c :: rest =>
      if c =? 0 then EmptyString
      else String (ascii_of_nat (Z.to_nat c)) (c_str rest)
  end.

(** *** Registry lookups *)

Definition get_client_for_pid (m : NMDHCPManagerPrivate) (pid : Z) : option positive :=
  fst <$> List.find (fun kv => client_pid (snd kv) =? pid) (map_to_list (clients m)).

Definition get_client_for_iface (m : NMDHCPManagerPrivate) (iface : string) : option positive :=
  fst <$> List.find (fun kv => String.eqb iface (client_iface (snd kv)))
                    (map_to_list (clients m)).

(** *** Event dispatch *)

Inductive Warning :=
| NoInterface
| NoPid
| CouldNotConvertPid
| UnhandledEvent (iface : string)
| UnexpectedInterface (iface expected : string)
| NoReason.

Inductive EventResult :=
| Dropped (w : Warning)
| Delivered (client : positive) (reason : string).

(** nm_dhcp_manager_handle_event.  [errno] is the value errno has when the
    handler runs (the handler does not clear it before strtoul). *)
Definition nm_dhcp_manager_handle_event (P : Platform) (m : NMDHCPManagerPrivate)
    (options : gmap string GValue) (errno : Z) : EventResult :=
  match get_option options "interface" with
  | None => Dropped NoInterface
  | Some iface =>
      match get_option options "pid" with
      | None => Dropped NoPid
      | Some pid_str =>
          let (temp, errno) := strtoul P (c_str pid_str) errno in
          if (temp =? ULONG_MAX P) && (errno =? ERANGE) then Dropped CouldNotConvertPid
          else
            match get_client_for_pid m (to_int temp) with
            | None => Dropped (UnhandledEvent (c_str iface))
            | Some client =>
                let expected :=
                  default EmptyString (client_iface <$> clients m !! client) in
                if negb (String.eqb (c_str iface) expected)
                then Dropped (UnexpectedInterface (c_str iface) expected)
                else
                  match get_option options "reason" with
                  | None => Dropped NoReason
                  | Some reason => Delivered client (c_str reason)
                  end
            end
      end
  end.

(** *** Construction *)

(** The compiled-in helper paths DHCLIENT_PATH and DHCPCD_PATH. *)
Record BuildConfig := { DHCLIENT_PATH : string; DHCPCD_PATH : string }.

(** nm_dhcp_manager_new: the choice of the back-end from the selector.  The
    function's other ways to return NULL (a NULL selector, the hash table or
    the bus proxy not being created) are not represented: a result here is
    the manager of a construction that went through. *)
Definition nm_dhcp_manager_new (B : BuildConfig) (client : string)
    : option NMDHCPManagerPrivate :=
  if String.eqb client "dhclient" && negb (String.length (DHCLIENT_PATH B) =? 0)%nat then
    Some {| client_type := NM_TYPE_DHCP_DHCLIENT;
            get_lease_config_func := nm_dhcp_dhclient_get_lease_config;
            clients := ∅; hostname_provider := None |}
  else if String.eqb client "dhcpcd" && negb (String.length (DHCPCD_PATH B) =? 0)%nat then
    Some {| client_type := NM_TYPE_DHCP_DHCPCD;
            get_lease_config_func := nm_dhcp_dhcpcd_get_lease_config;
            clients := ∅; hostname_provider := None |}
  else None.

(** *** Registry updates *)

Definition remove_client (m : NMDHCPManagerPrivate) (client : positive) : NMDHCPManagerPrivate :=
  with_clients m (delete client (clients m)).

Definition client_state_changed (m : NMDHCPManagerPrivate) (client : positive)
    (new_state : NMDHCPState) : NMDHCPManagerPrivate :=
  match new_state with
  | DHC_ABEND | DHC_END => remove_client m client
  | _ => m
  end.

Definition client_timeout (m : NMDHCPManagerPrivate) (client : positive) : NMDHCPManagerPrivate :=
  remove_client m client.

Definition add_client (m : NMDHCPManagerPrivate) (client : positive)
    (obj : NMDHCPClient) : NMDHCPManagerPrivate :=
  with_clients m (<[client := obj]> (clients m)).

Record NMSettingIP4Config := {
  dhcp_send_hostname : bool;
  dhcp_hostname : option string
}.

(** What nm_dhcp_manager_start_client does to the outside, in order. *)
Inductive Effect :=
| EStop (client : positive)
| ERemove (client : positive)
| ENew (client : positive) (type : GType) (iface : string)
| EAdd (client : positive)
| EStart (client : positive) (setting : option NMSettingIP4Config)
| EUnref (client : positive).

Record Started := {
  manager_after : NMDHCPManagerPrivate;
  returned : option positive;
  effects : list Effect
}.

(** Modelled from the spec: nm_dhcp_client_start is defined in
    nm-dhcp-client.c, not part of this excerpt.  It succeeds exactly when
    the helper was spawned, and then the client holds the helper's pid.
    [spawn] is the outcome of the spawn: the pid, or None on failure. *)
Definition nm_dhcp_client_start (obj : NMDHCPClient) (spawn : option Z)
    : bool * NMDHCPClient :=
  match spawn with
  | Some pid =>
      (true, {| client_gtype := client_gtype obj; client_iface := client_iface obj;
                client_pid := pid |})
  | None => (false, obj)
  end.

(** nm_dhcp_manager_start_client.  [addr] is the address g_object_new
    returns for the new client; the table holds a pointer to the client, so
    what the start does to the client shows in the table. *)
Definition nm_dhcp_manager_start_client (m : NMDHCPManagerPrivate) (addr : positive)
    (iface : string) (s_ip4 : option NMSettingIP4Config) (spawn : option Z) : Started :=
  let (m1, eff1) :=
    match get_client_for_iface m iface with
    | Some old => (remove_client m old, [EStop old; ERemove old])
    | None => (m, [])
    end in
  let obj := {| client_gtype := NM_TYPE_DHCP_DHCLIENT; client_iface := iface; client_pid := 0 |} in
  let m2 := add_client m1 addr obj in
  let setting :=
    match s_ip4, hostname_provider m with
    | Some s, Some hostname =>
        if dhcp_send_hostname s && negb (bool_decide (is_Some (dhcp_hostname s)))
        then Some {| dhcp_send_hostname := dhcp_send_hostname s;
                     dhcp_hostname := Some hostname |}
        else None
    | _, _ => None
    end in
  let eff2 := eff1 ++ [ENew addr NM_TYPE_DHCP_DHCLIENT iface; EAdd addr; EStart addr setting] in
  let (success, obj) := nm_dhcp_client_start obj spawn in
  let m3 := with_clients m2 (<[addr := obj]> (clients m2)) in
  if success then
    {| manager_after := m3; returned := Some addr; effects := eff2 |}
  else
    {| manager_after := remove_client m3 addr;
       returned := None;
       effects := eff2 ++ [ERemove addr; EUnref addr] |}.

Definition nm_dhcp_manager_set_hostname_provider (m : NMDHCPManagerPrivate)
    (provider : option string) : NMDHCPManagerPrivate :=
  {| client_type := client_type m;
     get_lease_config_func := get_lease_config_func m;
     clients := clients m;
     hostname_provider := provider |}.

Definition nm_dhcp_manager_get_lease_config (m : NMDHCPManagerPrivate) : LeaseReader :=
  get_lease_config_func m.

(** dispose: remove_client on every value of the table. *)
Definition dispose (m : NMDHCPManagerPrivate) : NMDHCPManagerPrivate :=
  fold_left (fun acc kv => remove_client acc (fst kv)) (map_to_list (clients m)) m.

(** *** Reachable manager states *)

(** The manager after construction, then any sequence of: a client start
    (the new object's address is not that of a client still registered
    once the old one was dropped), a state-changed or timeout signal from a
    client, a change of hostname provider, dispose.  Bus events leave the
    manager's own state as it is; the client's reaction to a delivered
    event reaches the manager as a state-changed signal. *)
Inductive reachable (B : BuildConfig) : NMDHCPManagerPrivate -> Prop :=
| reach_new client m :
    nm_dhcp_manager_new B client = Some m -> reachable B m
| reach_start m addr iface s_ip4 spawn :
    reachable B m ->
    (match get_client_for_iface m iface with
     | Some old => remove_client m old
     | None => m
     end).(clients) !! addr = None ->
    reachable B (manager_after (nm_dhcp_manager_start_client m addr iface s_ip4 spawn))
| reach_state_changed m client new_state :
    reachable B m -> reachable B (client_state_changed m client new_state)
| reach_timeout m client :
    reachable B m -> reachable B (client_timeout m client)
| reach_hostname m provider :
    reachable B m -> reachable B (nm_dhcp_manager_set_hostname_provider m provider)
| reach_dispose m :
    reachable B m -> reachable B (dispose m).

End Manager.

(** ** dhcpcd back-end: starting and stopping the helper *)

Module DhcpcdClient.

(** The installation directories LOCALSTATEDIR and LIBEXECDIR. *)
Record InstallDirs := { LOCALSTATEDIR : string; LIBEXECDIR : string }.

Definition ACTION_SCRIPT_PATH (D : InstallDirs) : string :=
  (LIBEXECDIR D ++ "/nm-dhcp-client.action")%string.

(** NMDHCPDhcpcdPrivate: the pid file path, NULL until the first start. *)
Record NMDHCPDhcpcdPrivate := { pid_file : option string }.

Fixpoint drop_separators (r : list ascii) : list ascii :=
  match r with
  | c :: rest => if Ascii.eqb c "/"%char then drop_separators rest else r
  | [] => []
  end.

Fixpoint take_component (r : list ascii) : list ascii :=
  match r with
  | c :: rest => if Ascii.eqb c "/"%char then [] else c :: take_component rest
  | [] => []
  end.

(** g_path_get_basename: "." for the empty name, "/" for a name made of
    separators only, else the last component with trailing separators
    dropped.  The scans run from the end of the name. *)
Definition g_path_get_basename (file_name : string) : string :=
  match file_name with
  | EmptyString => "."%string
  | _ =>
      match drop_separators (rev (list_ascii_of_string file_name)) with
      | [] => "/"%string
      | r => string_of_list_ascii (rev (take_component r))
      end
  end.

(** What the two virtual methods do to the outside, in order. *)
Inductive Action :=
| WarnMissingBinary (path : string)
| StopExisting (pid_file binary_name : string)
| SpawnAsync (argv : list string)
| WarnSpawnFailed
| InfoStarted (pid : Z)
| ParentStop
| RemoveFile (path : string).

Record StartOutcome := {
  priv_after : NMDHCPDhcpcdPrivate;
  start_pid : Z;
  actions : list Action
}.

(** real_ip4_start.  [iface] is what nm_dhcp_client_get_iface returns,
    [binary_exists] the answer of g_file_test on DHCPCD_PATH, [spawn] the
    outcome of g_spawn_async: the child's pid, or None when it fails (the
    local pid then keeps its initial 0). *)
Definition real_ip4_start (D : InstallDirs) (B : Manager.BuildConfig)
    (priv : NMDHCPDhcpcdPrivate) (iface : string)
    (binary_exists : bool) (spawn : option Z) : StartOutcome :=
  match pid_file priv with
  | Some _ => {| priv_after := priv; start_pid := -1; actions := [] |}
  | None =>
      let file := (LOCALSTATEDIR D ++ "/run/dhcpcd-" ++ iface ++ ".pid")%string in
      let priv := {| pid_file := Some file |} in
      if negb binary_exists then
        {| priv_after := priv; start_pid := -1;
           actions := [WarnMissingBinary (Manager.DHCPCD_PATH B)] |}
      else
        let binary_name := g_path_get_basename (Manager.DHCPCD_PATH B) in
        let argv := [Manager.DHCPCD_PATH B; "-B"; "-K"; "-L"; "-c";
                     ACTION_SCRIPT_PATH D; iface]%string in
        let before := [StopExisting file binary_name; SpawnAsync argv] in
        match spawn with
        | None =>
            {| priv_after := priv; start_pid := 0; actions := before ++ [WarnSpawnFailed] |}
        | Some pid =>
            {| priv_after := priv; start_pid := pid; actions := before ++ [InfoStarted pid] |}
        end
  end.

(** real_stop: the parent class's stop, then the pid file is removed when
    there is one.  The private data is left as it is. *)
Definition real_stop (priv : NMDHCPDhcpcdPrivate) : list Action :=
  ParentStop :: match pid_file priv with
                | Some file => [RemoveFile file]
                | None => []
                end.

(** nm_dhcp_dhcpcd_get_lease_config: NULL, the empty list. *)
Definition nm_dhcp_dhcpcd_get_lease_config (iface uuid : string) : list Dhcpcd.NMIP4Config := [].

End DhcpcdClient.

Import Dhcpcd Manager.

(** ** More of the manager *)


(** What calling priv->get_lease_config_func gives.  The dhclient reader is
    defined outside this excerpt and stays a parameter. *)
Definition call_lease_reader (dhclient_reader : string -> string -> list NMIP4Config)
    (m : NMDHCPManagerPrivate) (iface uuid : string) : list NMIP4Config :=
  match nm_dhcp_manager_get_lease_config m with
  | Manager.nm_dhcp_dhclient_get_lease_config => dhclient_reader iface uuid
  | Manager.nm_dhcp_dhcpcd_get_lease_config =>
      DhcpcdClient.nm_dhcp_dhcpcd_get_lease_config iface uuid
  end.

(** ** Concrete inputs used by the examples below *)

(** The octets of a text, as a byte array of the bus carries them. *)
Definition bytes_of (s : string) : list Z :=
  List.map (fun c => Z.of_nat (nat_of_ascii c)) (list_ascii_of_string s).

Definition empty_config : NMIP4Config := {| config_routes := [] |}.

Definition classless (text : string) : gmap string string :=
  {[ "new_classless_static_routes"%string := text ]}.

(** Scenario S2 of the specification. *)
Definition s2_options : gmap string string :=
  classless "10.0.0.0/8 192.0.2.1 0.0.0.0/0 192.0.2.254".

(** Scenario S4 of the specification. *)
Definition s4_options : gmap string string :=
  classless "10.0.0.0/8 10.0.0.1 192.168.0.0/16".

(** A build with both helpers compiled in. *)
Definition build : BuildConfig :=
  {| DHCLIENT_PATH := "/sbin/dhclient"; DHCPCD_PATH := "/sbin/dhcpcd" |}.

(** The manager a daemon configured for dhcpcd constructs. *)
Definition dhcpcd_manager : NMDHCPManagerPrivate :=
  {| client_type := NM_TYPE_DHCP_DHCPCD;
     get_lease_config_func := nm_dhcp_dhcpcd_get_lease_config;
     clients := ∅; hostname_provider := None |}.

(** A manager with one client, at address 5, for eth0, helper pid 1234. *)
Definition eth0_client : NMDHCPClient :=
  {| client_gtype := NM_TYPE_DHCP_DHCLIENT; client_iface := "eth0"; client_pid := 1234 |}.

Definition eth0_manager : NMDHCPManagerPrivate :=
  {| client_type := NM_TYPE_DHCP_DHCLIENT;
     get_lease_config_func := nm_dhcp_dhclient_get_lease_config;
     clients := {[ 5%positive := eth0_client ]}; hostname_provider := None |}.

(** A BOUND event for eth0 carrying the given pid text. *)
Definition bound_event (pid : string) : gmap string GValue :=
  {[ "interface"%string := UCharArray (Some (bytes_of "eth0"));
     "pid"%string := UCharArray (Some (bytes_of pid));
     "reason"%string := UCharArray (Some (bytes_of "BOUND")) ]}.

Definition route_10_8 : NMIP4Route :=
  {| route_dest := 167772160; route_prefix := 8; route_next_hop := 3221225985 |}.

(** ** Notions used to state the properties *)

Definition is_octet (b : Z) : Prop := 0 <= b < 256.

(** The translation of one byte as the specification words it. *)
Definition decoded (b : Z) : Z :=
  if b =? 0 then 32 else if 127 <? b then 63 else b.

(** The destination tokens of a token vector: those at even positions. *)
Fixpoint dest_tokens (r : list string) : list string :=
  match r with
  | r0 :: _ :: rest => r0 :: dest_tokens rest
  | _ => []
  end.

(** The text after the slash of a destination token, when strtol reports an
    error on it. *)
Definition cidr_rejected (P : Platform) (r0 : string) : option string :=
  match strchr_cut r0 "/"%char with
  | Some (_, cidr) =>
      let errno := snd (strtol P cidr 0) in
      if (errno =? EINVAL) || (errno =? ERANGE) then Some cidr else None
  | None => None
  end.

(** The address part of a destination token. *)
Definition dest_text (r0 : string) : string :=
  match strchr_cut r0 "/"%char with
  | Some (addr, _) => addr
  | None => r0
  end.

(** The prefix a destination token stands for, when its cidr part is not
    rejected: 32 without a slash, else the int read after the slash. *)
Definition token_prefix (P : Platform) (r0 : string) : option Z :=
  match strchr_cut r0 "/"%char with
  | Some (_, cidr) =>
      match cidr_rejected P r0 with
      | Some _ => None
      | None => Some (to_int (fst (strtol P cidr 0)))
      end
  | None => Some 32
  end.

(** A pair with an invalid token: unparsable cidr suffix, invalid
    destination address, or invalid next-hop address. *)
Definition invalid_pair (P : Platform) (r0 r1 : string) : Prop :=
  is_Some (cidr_rejected P r0) \/ inet_pton (dest_text r0) = None \/ inet_pton r1 = None.

Definition is_warning (e : LogEntry) : bool :=
  match e with
  | WarnInvalidCidr _ | WarnInvalidAddress _ | WarnInvalidGateway _ => true
  | _ => false
  end.

(** The state [st] with one more log entry [w], placed after the first [n]
    entries. *)
Definition log_insert (n : nat) (w : LogEntry) (st : State) : State :=
  {| have_routes := have_routes st; ip4_config := ip4_config st; gwaddr := gwaddr st;
     log := take n (log st) ++ w :: drop n (log st) |}.

Definition prefix_in_range (r : NMIP4Route) : Prop := 0 <= route_prefix r <= 32.

(** The digits of a pid text denote a number that does not fit in an
    unsigned long. *)
Definition pid_out_of_range (P : Platform) (pid_str : string) : Prop :=
  exists v, snd (subject pid_str) = Some v /\ v > ULONG_MAX P.

(** The client is out of the registry and no event can be dispatched to it. *)
Definition gone (m : NMDHCPManagerPrivate) (client : positive) : Prop :=
  clients m !! client = None /\
  forall P options errno reason,
    nm_dhcp_manager_handle_event P m options errno <> Delivered client reason.

(** No two registered clients share an interface name. *)
Definition unique_iface (m : NMDHCPManagerPrivate) : Prop :=
  forall p1 p2 c1 c2,
    clients m !! p1 = Some c1 -> clients m !! p2 = Some c2 ->
    p1 <> p2 -> client_iface c1 <> client_iface c2.

(** A text of 7-bit characters without NUL. *)
Definition ascii7 (s : string) : Prop :=
  Forall (fun ch => 1 <= code ch <= 127) (list_ascii_of_string s).

(** The number of space characters of a text. *)
Definition spaces (s : string) : nat :=
  count_occ ascii_dec (list_ascii_of_string s) " "%char.

(** The pairs (destination, next hop) the loop visits. *)
Fixpoint pairs_of (r : list string) : list (string * string) :=
  match r with
  | r0 :: r1 :: rest => (r0, r1) :: pairs_of rest
  | _ => []
  end.

(** The pair passes the three checks of the loop body. *)
Definition pair_accepted (P : Platform) (pr : string * string) : bool :=
  match cidr_rejected P pr.1, inet_pton (dest_text pr.1), inet_pton pr.2 with
  | None, Some _, Some _ => true
  | _, _, _ => false
  end.

(** The route an accepted pair makes, unless it is a default route. *)
Definition pair_route (P : Platform) (pr : string * string) : option NMIP4Route :=
  match token_prefix P pr.1, inet_pton (dest_text pr.1), inet_pton pr.2 with
  | Some c, Some a, Some g =>
      if (c =? 0) && (a =? 0) then None
      else Some {| route_dest := a; route_prefix := to_uint32 c; route_next_hop := g |}
  | _, _, _ => None
  end.

(** The warning the loop body gives for a pair it skips, with the text it
    names: the cidr text, the destination address text, or the next hop. *)
Definition pair_warning (P : Platform) (pr : string * string) : option LogEntry :=
  match cidr_rejected P pr.1 with
  | Some cidr => Some (WarnInvalidCidr cidr)
  | None =>
      match inet_pton (dest_text pr.1) with
      | None => Some (WarnInvalidAddress (dest_text pr.1))
      | Some _ =>
          match inet_pton pr.2 with
          | None => Some (WarnInvalidGateway pr.2)
          | Some _ => None
          end
      end
  end.

(** The pair is an accepted default route: prefix 0 on 0.0.0.0. *)
Definition pair_default (P : Platform) (pr : string * string) : bool :=
  match token_prefix P pr.1, inet_pton (dest_text pr.1), inet_pton pr.2 with
  | Some c, Some a, Some _ => (c =? 0) && (a =? 0)
  | _, _, _ => false
  end.

(** What one pair adds to the log: its warning when it is skipped, nothing
    when it is a default route, else the message for the stored route. *)
Definition pair_log (P : Platform) (pr : string * string) : list LogEntry :=
  match pair_warning P pr with
  | Some w => [w]
  | None =>
      if pair_default P pr then []
      else match token_prefix P pr.1 with
           | Some c => [InfoRoute (dest_text pr.1) c pr.2]
           | None => []
           end
  end.

(** The lease reader is the one of the client type. *)
Definition reader_matches_type (m : NMDHCPManagerPrivate) : Prop :=
  (client_type m = NM_TYPE_DHCP_DHCLIENT /\
   get_lease_config_func m = Manager.nm_dhcp_dhclient_get_lease_config) \/
  (client_type m = NM_TYPE_DHCP_DHCPCD /\
   get_lease_config_func m = Manager.nm_dhcp_dhcpcd_get_lease_config).

(** * Properties *)

(** ** The C library model on sample inputs *)

Example strtol_8 : strtol glibc64 "8" 0 = (8, 0).
Proof. reflexivity. Qed.
Example strtol_big : strtol glibc64 "9223372036854775808" 0 = (LONG_MAX glibc64, ERANGE).
Proof. reflexivity. Qed.
Example strtol_abc : strtol glibc64 "abc" 0 = (0, 0).
Proof. reflexivity. Qed.
Example strtoul_neg : strtoul glibc64 "-1" 0 = (ULONG_MAX glibc64, 0).
Proof. reflexivity. Qed.
Example inet_ok : inet_pton "192.0.2.254" = Some 3221226238.
Proof. reflexivity. Qed.
Example inet_bad1 : inet_pton "192.0.2" = None.
Proof. reflexivity. Qed.
Example inet_bad2 : inet_pton "192.0.02.1" = None.
Proof. reflexivity. Qed.
Example inet_bad3 : inet_pton "1.2.3.4." = None.
Proof. reflexivity. Qed.
Example split1 : g_strsplit "a b  c " " "%char = ["a"; "b"; ""; "c"; ""]%string.
Proof. reflexivity. Qed.
Example cut1 : strchr_cut "10.0.0.0/8/9" "/"%char = Some ("10.0.0.0", "8/9")%string.
Proof. reflexivity. Qed.

(** ** Option decoding *)

Section Decoding.

Lemma append_converted_map (data str : list Z) :
  append_converted data str = str ++ List.map convert data.
Proof.
  revert str; induction data as [|raw rest IH]; intros str; simpl.
  - by rewrite app_nil_r.
  - rewrite IH. unfold g_string_append_c. by rewrite <- app_assoc.
Qed.

Lemma convert_range (raw : Z) : 1 <= convert raw <= 127.
Proof.
  unfold convert.
  pose proof (Z.mod_pos_bound raw 256 ltac:(lia)) as Hb.
  destruct (raw mod 256 =? 0) eqn:E0; [lia|].
  destruct (raw mod 256 >? 127) eqn:E1; [lia|].
  apply Z.eqb_neq in E0. lia.
Qed.

Lemma convert_octet (b : Z) : is_octet b -> convert b = decoded b.
Proof.
  intros Hb. unfold convert, decoded.
  rewrite Z.mod_small by exact Hb.
  destruct (b =? 0); [done|].
  by rewrite Z.gtb_ltb.
Qed.

Lemma garray_to_string_eq (data : list Z) (key : string) :
  garray_to_string (Some data) key = Some (List.map convert data ++ [0]).
Proof.
  unfold garray_to_string, g_string_sized_new, g_string_append_c.
  by rewrite append_converted_map.
Qed.

Lemma c_str_terminated (body : list Z) (rest : list Z) :
  Forall (fun c => c <> 0) body ->
  String.length (c_str (body ++ 0 :: rest)) = List.length body.
Proof.
  induction 1 as [|c body Hc _ IH]; simpl; [done|].
  destruct (c =? 0) eqn:E; [apply Z.eqb_eq in E; done|].
  simpl. by rewrite IH.
Qed.

End Decoding.

(** C3. For every byte array and key, garray_to_string returns the array
    translated byte by byte (0x00 to 0x20, every byte above 127 to 0x3F,
    all other bytes kept, order kept) followed by one terminating zero byte;
    no byte of the translated part is 0x00 and none exceeds 127, so the C
    string returned is as long as the array. *)
Theorem garray_to_string_bytewise (data : list Z) (key : string) :
  Forall is_octet data ->
  garray_to_string (Some data) key = Some (List.map decoded data ++ [0]) /\
  Forall (fun c => c <> 0 /\ c <= 127) (List.map decoded data) /\
  (forall i b, data !! i = Some b -> (List.map decoded data) !! i = Some (decoded b)) /\
  List.length (List.map decoded data) = List.length data /\
  String.length (c_str (List.map decoded data ++ [0])) = List.length data.
Proof.
  intros Hoct.
  assert (Heq : List.map convert data = List.map decoded data).
  { induction Hoct as [|b rest Hb _ IH]; simpl; [done|].
    by rewrite IH, convert_octet. }
  assert (Hascii : Forall (fun c => c <> 0 /\ c <= 127) (List.map decoded data)).
  { rewrite <- Heq. apply Forall_forall. intros c Hc.
    apply list_elem_of_In, in_map_iff in Hc as (raw & <- & _).
    pose proof (convert_range raw). lia. }
  split; [by rewrite garray_to_string_eq, Heq|].
  split; [done|].
  split.
  { intros i b Hi. change (List.map decoded data) with (decoded <$> data).
    by rewrite list_lookup_fmap, Hi. }
  split; [by rewrite length_map|].
  rewrite c_str_terminated, length_map; [done|].
  eapply Forall_impl; [exact Hascii|]. by intros c [Hc _].
Qed.

Lemma garray_to_string_bytewise_witness :
  garray_to_string (Some [0; 65; 200; 127; 128; 255]) "new_host_name"
  = Some ([32; 65; 63; 127; 63; 63] ++ [0]).
Proof.
  apply (garray_to_string_bytewise [0; 65; 200; 127; 128; 255] "new_host_name").
  repeat constructor; unfold is_octet; lia.
Defined.

(** C10. A key whose value is a byte array of length zero decodes to the
    empty string: the buffer returned holds the terminating zero byte and
    nothing else.  get_option gives no result exactly when the key is
    missing or its value does not hold a byte array. *)
Theorem get_option_empty_array (hash : gmap string GValue) (key : string) :
  (hash !! key = Some (UCharArray (Some [])) ->
     get_option hash key = Some [0] /\ c_str [0] = EmptyString) /\
  (get_option hash key = None <->
     hash !! key = None \/
     exists v, hash !! key = Some v /\ (forall data, v <> UCharArray (Some data))).
Proof.
  split.
  - intros Hk. unfold get_option. by rewrite Hk.
  - unfold get_option. destruct (hash !! key) as [[[data|]|]|] eqn:Hk.
    + rewrite garray_to_string_eq. split; [done|].
      intros [?|(v & Hv & Hn)]; [done|].
      injection Hv as <-. by destruct (Hn data).
    + split; [|done]. intros _. right. eexists; split; [done|]. by intros.
    + split; [|done]. intros _. right. eexists; split; [done|]. by intros.
    + split; [|done]. intros _. by left.
Qed.

Lemma get_option_empty_array_witness :
  get_option {[ "new_domain_name"%string := UCharArray (Some []) ]} "new_domain_name"
  = Some [0].
Proof.
  apply (get_option_empty_array
           {[ "new_domain_name"%string := UCharArray (Some []) ]} "new_domain_name").
  reflexivity.
Defined.

(** ** Classless static routes *)

Section ClasslessRoutes.

Variable P : Platform.

(** Induction over a vector two tokens at a time. *)
Lemma pairs_ind {A : Type} (Q : list A -> Prop) :
  Q [] -> (forall x, Q [x]) -> (forall a b l, Q l -> Q (a :: b :: l)) ->
  forall l, Q l.
Proof.
  intros H0 H1 H2 l.
  assert (H : Q l /\ forall a, Q (a :: l)); [|tauto].
  induction l as [|b l [IHl IHal]]; split; auto.
Qed.

Lemma route_loop_app (pre l : list string) (st : State) :
  Nat.Even (List.length pre) ->
  route_loop P (pre ++ l) st = route_loop P l (route_loop P pre st).
Proof.
  revert st. induction pre as [|x|a b pre IH] using pairs_ind; intros st Hev.
  - done.
  - destruct Hev as [k Hk]. simpl in Hk. lia.
  - simpl. apply IH. destruct Hev as [k Hk]. simpl in Hk.
    exists (k - 1)%nat. lia.
Qed.

Lemma read_cidr_rejected (r0 cidr : string) :
  cidr_rejected P r0 = Some cidr -> read_cidr P r0 = (dest_text r0, inr cidr).
Proof.
  unfold cidr_rejected, read_cidr, dest_text.
  destruct (strchr_cut r0 "/") as [[addr c]|]; [|done].
  destruct (strtol P c 0) as [v e]; simpl.
  destruct ((e =? EINVAL) || (e =? ERANGE)); [|done].
  by intros [= ->].
Qed.

Lemma read_cidr_accepted (r0 : string) :
  cidr_rejected P r0 = None ->
  exists c, token_prefix P r0 = Some c /\ read_cidr P r0 = (dest_text r0, inl c).
Proof.
  unfold token_prefix. intros Hrej. rewrite Hrej. revert Hrej.
  unfold cidr_rejected, read_cidr, dest_text.
  destruct (strchr_cut r0 "/") as [[addr c]|]; [|by eexists].
  destruct (strtol P c 0) as [v e]; simpl.
  destruct ((e =? EINVAL) || (e =? ERANGE)); [done|].
  by eexists.
Qed.

(** A pair with an invalid token only adds its warning to the log. *)
Lemma route_pair_invalid (st : State) (r0 r1 : string) :
  invalid_pair P r0 r1 ->
  exists w, is_warning w = true /\ forall st, route_pair P st r0 r1 = say st w.
Proof.
  intros Hinv. unfold route_pair.
  destruct (cidr_rejected P r0) as [cidr|] eqn:Hc.
  { exists (WarnInvalidCidr cidr). split; [done|]. intros st'.
    by rewrite (read_cidr_rejected _ _ Hc). }
  destruct (read_cidr_accepted _ Hc) as (c & _ & ->).
  destruct (inet_pton (dest_text r0)) as [a|] eqn:Ha.
  2:{ exists (WarnInvalidAddress (dest_text r0)). by split. }
  destruct (inet_pton r1) as [g|] eqn:Hg.
  2:{ exists (WarnInvalidGateway r1). by split. }
  destruct Hinv as [[? ?]|[?|?]]; congruence.
Qed.

Lemma say_log_insert (st : State) (w : LogEntry) :
  say st w = log_insert (List.length (log st)) w st.
Proof.
  unfold say, log_insert. f_equal.
  by rewrite take_ge, drop_ge by lia.
Qed.

Lemma log_insert_say (n : nat) (w e : LogEntry) (st : State) :
  (n <= List.length (log st))%nat ->
  say (log_insert n w st) e = log_insert n w (say st e).
Proof.
  intros Hn. unfold say, log_insert; simpl. f_equal.
  rewrite take_app_le, drop_app_le by lia.
  by rewrite <- app_assoc.
Qed.

Lemma route_pair_log_insert (n : nat) (w : LogEntry) (st : State) (r0 r1 : string) :
  (n <= List.length (log st))%nat ->
  route_pair P (log_insert n w st) r0 r1 = log_insert n w (route_pair P st r0 r1).
Proof.
  intros Hn. unfold route_pair.
  destruct (read_cidr P r0) as [addr [c|cidr]]; [|by apply log_insert_say].
  destruct (inet_pton addr) as [a|]; [|by apply log_insert_say].
  destruct (inet_pton r1) as [g|]; [|by apply log_insert_say].
  destruct ((c =? 0) && (a =? 0)); [done|].
  unfold log_insert; simpl. f_equal.
  rewrite take_app_le, drop_app_le by lia.
  by rewrite <- app_assoc.
Qed.

Lemma route_pair_log_grows (st : State) (r0 r1 : string) :
  (List.length (log st) <= List.length (log (route_pair P st r0 r1)))%nat.
Proof.
  unfold route_pair.
  destruct (read_cidr P r0) as [addr [c|cidr]]; simpl; [|rewrite length_app; lia].
  destruct (inet_pton addr) as [a|]; simpl; [|rewrite length_app; lia].
  destruct (inet_pton r1) as [g|]; simpl; [|rewrite length_app; lia].
  destruct ((c =? 0) && (a =? 0)); simpl; [lia|rewrite length_app; lia].
Qed.

Lemma route_loop_log_insert (n : nat) (w : LogEntry) (l : list string) (st : State) :
  (n <= List.length (log st))%nat ->
  route_loop P l (log_insert n w st) = log_insert n w (route_loop P l st).
Proof.
  revert st. induction l as [|x|r0 r1 l IH] using pairs_ind; intros st Hn; [done..|].
  simpl. rewrite route_pair_log_insert by done.
  apply IH. pose proof (route_pair_log_grows st r0 r1). lia.
Qed.

(** Skipping is local: the loop over a vector holding an invalid pair ends
    in the state the loop over the other pairs ends in, with the warning
    logged where the pair stood. *)
Lemma route_loop_skips_pair (pre post : list string) (r0 r1 : string) :
  Nat.Even (List.length pre) ->
  invalid_pair P r0 r1 ->
  exists w, is_warning w = true /\
    forall st,
      route_loop P (pre ++ r0 :: r1 :: post) st
      = log_insert (List.length (log (route_loop P pre st))) w
                   (route_loop P (pre ++ post) st).
Proof.
  intros Hev Hinv.
  destruct (route_pair_invalid (on_entry empty_config 0) r0 r1 Hinv) as (w & Hw & Hsay).
  exists w. split; [done|]. intros st.
  rewrite !route_loop_app by done. simpl.
  rewrite Hsay, say_log_insert.
  by apply route_loop_log_insert.
Qed.

Lemma strv_length_even (l : list string) :
  Nat.Even (List.length l) -> g_strv_length l mod 2 = 0.
Proof.
  intros [k Hk]. unfold g_strv_length. rewrite Hk.
  rewrite Nat2Z.inj_mul, Z.mul_comm. apply Z_mod_mult.
Qed.

Lemma strv_length_odd (l : list string) :
  Nat.Odd (List.length l) -> g_strv_length l mod 2 = 1.
Proof.
  intros [k Hk]. unfold g_strv_length. rewrite Hk.
  rewrite Nat2Z.inj_add, Nat2Z.inj_mul, Z.add_comm, Z.mul_comm.
  by rewrite Z_mod_plus_full.
Qed.

(** With a token vector of even, non-zero length the function is the loop
    run from the entry state. *)
Lemma process_is_loop (options : gmap string string) (cfg : NMIP4Config) (gw : Z)
      (str : string) :
  lookup_routes_option options = Some str ->
  Nat.Even (List.length (g_strsplit str " ")) ->
  real_ip4_process_classless_routes P options cfg gw
  = route_loop P (g_strsplit str " ") (on_entry cfg gw).
Proof.
  intros Hstr Hev. unfold real_ip4_process_classless_routes. rewrite Hstr.
  destruct str as [|c s]; [done|].
  change (String.length (String c s) =? 0)%nat with false. cbv iota.
  set (routes := g_strsplit (String c s) " ") in *.
  destruct (g_strv_length routes =? 0) eqn:E0.
  { destruct routes; [done|]. unfold g_strv_length in E0. simpl in E0. lia. }
  by rewrite (strv_length_even _ Hev).
Qed.

End ClasslessRoutes.

(** C7. When the routes option splits into an odd number of tokens no pair
    is accepted: have_routes is false, the configuration and the gateway
    cell are left as they were, and the rejection is logged. *)
Theorem odd_token_count_rejected (P : Platform) (options : gmap string string)
    (cfg : NMIP4Config) (gw : Z) (str : string) :
  lookup_routes_option options = Some str ->
  Nat.Odd (List.length (g_strsplit str " ")) ->
  real_ip4_process_classless_routes P options cfg gw
  = {| have_routes := false; ip4_config := cfg; gwaddr := gw; log := [InfoRoutesInvalid] |}.
Proof.
  intros Hstr Hodd. unfold real_ip4_process_classless_routes. rewrite Hstr.
  destruct str as [|c s]; [destruct Hodd as [k Hk]; simpl in Hk; lia|].
  change (String.length (String c s) =? 0)%nat with false. cbv iota.
  set (routes := g_strsplit (String c s) " ") in *.
  rewrite (strv_length_odd _ Hodd).
  destruct (g_strv_length routes =? 0) eqn:E0; [|done].
  apply Z.eqb_eq in E0. pose proof (strv_length_odd _ Hodd) as H1.
  rewrite E0 in H1. done.
Qed.

Lemma odd_token_count_rejected_witness :
  real_ip4_process_classless_routes glibc64 s4_options empty_config 0
  = {| have_routes := false; ip4_config := empty_config; gwaddr := 0;
       log := [InfoRoutesInvalid] |}.
Proof.
  apply (odd_token_count_rejected glibc64 s4_options empty_config 0
           "10.0.0.0/8 10.0.0.1 192.168.0.0/16").
  - reflexivity.
  - exists 1%nat. reflexivity.
Defined.

Section StoredRoutes.

Variable P : Platform.

Lemma read_cidr_prefix (r0 addr : string) (c : Z) :
  read_cidr P r0 = (addr, inl c) -> token_prefix P r0 = Some c.
Proof.
  unfold read_cidr, token_prefix, cidr_rejected.
  destruct (strchr_cut r0 "/") as [[a cidr]|]; [|by intros [= _ <-]].
  destruct (strtol P cidr 0) as [v e]; simpl.
  destruct ((e =? EINVAL) || (e =? ERANGE)); [done|].
  by intros [= _ <-].
Qed.

(** One turn of the loop stores nothing, or one route whose prefix is the
    one its destination token stands for. *)
Lemma route_pair_routes (st : State) (r0 r1 : string) :
  config_routes (ip4_config (route_pair P st r0 r1)) = config_routes (ip4_config st) \/
  exists c r, token_prefix P r0 = Some c /\ route_prefix r = to_uint32 c /\
    config_routes (ip4_config (route_pair P st r0 r1))
    = config_routes (ip4_config st) ++ [r].
Proof.
  unfold route_pair.
  destruct (read_cidr P r0) as [addr [c|cidr]] eqn:Hc; [|by left].
  destruct (inet_pton addr) as [a|]; [|by left].
  destruct (inet_pton r1) as [g|]; [|by left].
  destruct ((c =? 0) && (a =? 0)); [by left|].
  right.
  exists c, {| route_dest := to_uint32 a; route_prefix := to_uint32 c;
               route_next_hop := to_uint32 g |}.
  split; [exact (read_cidr_prefix _ _ _ Hc)|]. by split.
Qed.

Lemma route_loop_routes (l : list string) (st : State) :
  exists new,
    config_routes (ip4_config (route_loop P l st)) = config_routes (ip4_config st) ++ new /\
    Forall (fun r => exists tok c, tok ∈ dest_tokens l /\ token_prefix P tok = Some c /\
                                   route_prefix r = to_uint32 c) new.
Proof.
  revert st. induction l as [|x|r0 r1 l IH] using pairs_ind; intros st.
  - exists []. by rewrite app_nil_r.
  - exists []. by rewrite app_nil_r.
  - simpl. destruct (IH (route_pair P st r0 r1)) as (new & Heq & Hall).
    assert (Hweak : Forall (fun r => exists tok c, tok ∈ r0 :: dest_tokens l /\
                      token_prefix P tok = Some c /\ route_prefix r = to_uint32 c) new).
    { eapply Forall_impl; [exact Hall|].
      intros r (tok & c & Hin & Hp & Hr). exists tok, c. split; [by right|done]. }
    destruct (route_pair_routes st r0 r1) as [Hsame|(c & r & Hp & Hr & Hadd)].
    + exists new. by rewrite Heq, Hsame.
    + exists (r :: new). split.
      * by rewrite Heq, Hadd, <- app_assoc.
      * constructor; [|done]. exists r0, c. split; [by left|done].
Qed.

(** The gateway cell is left alone or overwritten with the destination
    address of a default route, which is 0. *)
Lemma route_pair_gwaddr (st : State) (r0 r1 : string) :
  gwaddr (route_pair P st r0 r1) = gwaddr st \/ gwaddr (route_pair P st r0 r1) = 0.
Proof.
  unfold route_pair.
  destruct (read_cidr P r0) as [addr [c|cidr]]; [|by left].
  destruct (inet_pton addr) as [a|]; [|by left].
  destruct (inet_pton r1) as [g|]; [|by left].
  destruct ((c =? 0) && (a =? 0)) eqn:E; [|by left].
  right. simpl. apply andb_true_iff in E as [_ E]. by apply Z.eqb_eq in E.
Qed.

Lemma route_loop_gwaddr (l : list string) (st : State) :
  gwaddr (route_loop P l st) = gwaddr st \/ gwaddr (route_loop P l st) = 0.
Proof.
  revert st. induction l as [|x|r0 r1 l IH] using pairs_ind; intros st; [by left..|].
  simpl. destruct (IH (route_pair P st r0 r1)) as [-> | ->]; [|by right].
  apply route_pair_gwaddr.
Qed.

End StoredRoutes.

(** C1 on the code. For the routes of scenario S2 one route, 10.0.0.0/8 via
    192.0.2.1, is stored, and the gateway cell receives 0.0.0.0, the
    destination of the default route, not its next hop 192.0.2.254.  On every
    input the cell ends up unchanged or 0. *)
Theorem default_route_gateway_is_destination (P : Platform) (gw : Z) :
  real_ip4_process_classless_routes P s2_options empty_config gw
  = {| have_routes := true;
       ip4_config := {| config_routes := [route_10_8] |};
       gwaddr := 0;
       log := [InfoRoute "10.0.0.0" 8 "192.0.2.1"] |} /\
  inet_pton "192.0.2.254" = Some 3221226238 /\
  forall options cfg gw',
    gwaddr (real_ip4_process_classless_routes P options cfg gw') = gw' \/
    gwaddr (real_ip4_process_classless_routes P options cfg gw') = 0.
Proof.
  split; [by destruct P as [[] []]|].
  split; [done|].
  intros options cfg gw'. unfold real_ip4_process_classless_routes.
  destruct (lookup_routes_option options) as [str|]; [|by left].
  destruct (String.length str =? 0)%nat; [by left|].
  destruct (g_strv_length (g_strsplit str " ") =? 0); [by left|].
  destruct (negb (g_strv_length (g_strsplit str " ") mod 2 =? 0)); [by left|].
  apply (route_loop_gwaddr P (g_strsplit str " ") (on_entry cfg gw')).
Qed.

(** ** The client registry *)

Section Registry.

Implicit Types (m : NMDHCPManagerPrivate) (iface : string).

Lemma get_client_for_iface_some m iface (old : positive) :
  get_client_for_iface m iface = Some old ->
  exists c, clients m !! old = Some c /\ client_iface c = iface.
Proof.
  unfold get_client_for_iface. intros Hf.
  destruct (List.find _ _) as [[p c]|] eqn:Hfind; [|done].
  injection Hf as <-. apply find_some in Hfind as [Hin Heq].
  apply list_elem_of_In, elem_of_map_to_list in Hin.
  apply String.eqb_eq in Heq. by exists c.
Qed.

Lemma get_client_for_iface_none m iface :
  get_client_for_iface m iface = None ->
  forall p c, clients m !! p = Some c -> client_iface c <> iface.
Proof.
  unfold get_client_for_iface. intros Hf p c Hp.
  destruct (List.find _ _) as [[p' c']|] eqn:Hfind; [done|].
  apply elem_of_map_to_list, list_elem_of_In in Hp.
  pose proof (find_none _ _ Hfind _ Hp) as Hne. simpl in Hne.
  apply String.eqb_neq in Hne. congruence.
Qed.

Lemma get_client_for_pid_some m (pid : Z) (client : positive) :
  get_client_for_pid m pid = Some client ->
  exists c, clients m !! client = Some c /\ client_pid c = pid.
Proof.
  unfold get_client_for_pid. intros Hf.
  destruct (List.find _ _) as [[p c]|] eqn:Hfind; [|done].
  injection Hf as <-. apply find_some in Hfind as [Hin Heq].
  apply list_elem_of_In, elem_of_map_to_list in Hin.
  apply Z.eqb_eq in Heq. by exists c.
Qed.

Lemma unique_iface_remove m (client : positive) :
  unique_iface m -> unique_iface (remove_client m client).
Proof.
  intros Hu p1 p2 c1 c2 H1 H2. simpl in H1, H2.
  apply lookup_delete_Some in H1 as [_ H1].
  apply lookup_delete_Some in H2 as [_ H2].
  by apply Hu.
Qed.

(** Once the client found for [iface] is dropped, nobody is registered
    for [iface]. *)
Lemma iface_free_after_removal m iface :
  unique_iface m ->
  let m1 := match get_client_for_iface m iface with
            | Some old => remove_client m old
            | None => m
            end in
  unique_iface m1 /\ forall p c, clients m1 !! p = Some c -> client_iface c <> iface.
Proof.
  intros Hu. destruct (get_client_for_iface m iface) as [old|] eqn:Hf; simpl.
  - split; [by apply unique_iface_remove|].
    destruct (get_client_for_iface_some _ _ _ Hf) as (co & Hold & Hiface).
    intros p c Hp. apply lookup_delete_Some in Hp as [Hne Hp].
    rewrite <- Hiface. by apply (Hu p old c co).
  - split; [done|]. by apply get_client_for_iface_none.
Qed.

(** Registering a client for an interface nobody is registered for. *)
Lemma unique_iface_add m (addr : positive) (obj : NMDHCPClient) :
  unique_iface m ->
  (forall p c, clients m !! p = Some c -> client_iface c <> client_iface obj) ->
  unique_iface (add_client m addr obj).
Proof.
  intros Hu Hfree p1 p2 c1 c2 H1 H2 Hne. simpl in H1, H2.
  apply lookup_insert_Some in H1 as [[<- <-]|[Hn1 H1]];
    apply lookup_insert_Some in H2 as [[<- <-]|[Hn2 H2]].
  - done.
  - intros Heq. by apply (Hfree p2 c2).
  - by apply (Hfree p1 c1).
  - by apply (Hu p1 p2).
Qed.

Lemma unique_iface_start m (addr : positive) iface
      (s_ip4 : option NMSettingIP4Config) (spawn : option Z) :
  unique_iface m ->
  unique_iface (manager_after (nm_dhcp_manager_start_client m addr iface s_ip4 spawn)).
Proof.
  intros Hu. destruct (iface_free_after_removal m iface Hu) as [Hu1 Hfree].
  unfold nm_dhcp_manager_start_client.
  set (m1 := match get_client_for_iface m iface with
             | Some old => remove_client m old
             | None => m
             end) in *.
  assert (Hm1 : forall X (k : NMDHCPManagerPrivate -> list Effect -> X),
             (let (m1', eff1) :=
                match get_client_for_iface m iface with
                | Some old => (remove_client m old, [EStop old; ERemove old])
                | None => (m, [])
                end in k m1' eff1)
             = k m1 (match get_client_for_iface m iface with
                     | Some old => [EStop old; ERemove old]
                     | None => []
                     end)).
  { intros X k. subst m1. by destruct (get_client_for_iface m iface). }
  rewrite Hm1. clear Hm1.
  destruct spawn as [pid|]; simpl.
  - rewrite insert_insert_eq.
    apply (unique_iface_add m1 addr
             {| client_gtype := NM_TYPE_DHCP_DHCLIENT; client_iface := iface;
                client_pid := pid |}); done.
  - apply unique_iface_remove. simpl. rewrite insert_insert_eq.
    apply (unique_iface_add m1 addr
             {| client_gtype := NM_TYPE_DHCP_DHCLIENT; client_iface := iface;
                client_pid := 0 |}); done.
Qed.

Lemma unique_iface_dispose m : unique_iface m -> unique_iface (dispose m).
Proof.
  unfold dispose. generalize (map_to_list (clients m)) as l.
  intros l. revert m. induction l as [|kv l IH]; intros m Hu; [done|].
  simpl. apply IH. by apply unique_iface_remove.
Qed.

(** An event is only ever delivered to a registered client whose pid and
    interface are those the event names. *)
Lemma delivered_client (P : Platform) m (options : gmap string GValue) (errno : Z)
      (client : positive) (reason : string) :
  nm_dhcp_manager_handle_event P m options errno = Delivered client reason ->
  exists c (ibuf pbuf : list Z),
    clients m !! client = Some c /\
    get_option options "interface" = Some ibuf /\
    get_option options "pid" = Some pbuf /\
    client_iface c = c_str ibuf /\
    client_pid c = to_int (fst (strtoul P (c_str pbuf) errno)).
Proof.
  unfold nm_dhcp_manager_handle_event.
  destruct (get_option options "interface") as [ibuf|]; [|done].
  destruct (get_option options "pid") as [pbuf|]; [|done].
  destruct (strtoul P (c_str pbuf) errno) as [temp e] eqn:Hs; simpl.
  destruct ((temp =? ULONG_MAX P) && (e =? ERANGE)); [done|].
  destruct (get_client_for_pid m (to_int temp)) as [cl|] eqn:Hf; [|done].
  destruct (get_client_for_pid_some _ _ _ Hf) as (c & Hc & Hpid).
  rewrite Hc. simpl.
  destruct (String.eqb (c_str ibuf) (client_iface c)) eqn:Heq; [|done].
  destruct (get_option options "reason") as [r|]; [|done].
  intros [= <- <-]. apply String.eqb_eq in Heq.
  exists c, ibuf, pbuf. by rewrite Hs.
Qed.

Lemma removed_is_gone m (client : positive) : gone (remove_client m client) client.
Proof.
  split; [by apply lookup_delete_eq|].
  intros P options errno reason Hd.
  apply delivered_client in Hd as (c & _ & _ & Hc & _).
  simpl in Hc. by rewrite lookup_delete_eq in Hc.
Qed.

End Registry.

(** C6. In every reachable state of the manager no two registered clients
    have the same interface name.  A start for an interface keeps this: the
    client found for the interface is stopped and removed first, then the
    new client is created and added, and afterwards the only client
    registered for the interface is the new one. *)
Theorem one_client_per_interface (B : BuildConfig) (m : NMDHCPManagerPrivate) :
  reachable B m ->
  unique_iface m /\
  forall (addr : positive) (iface : string) (s_ip4 : option NMSettingIP4Config)
         (spawn : option Z),
    let r := nm_dhcp_manager_start_client m addr iface s_ip4 spawn in
    unique_iface (manager_after r) /\
    (forall p c, clients (manager_after r) !! p = Some c ->
                 client_iface c = iface -> p = addr) /\
    (forall old, get_client_for_iface m iface = Some old ->
       exists rest,
         effects r = EStop old :: ERemove old ::
                     ENew addr NM_TYPE_DHCP_DHCLIENT iface :: EAdd addr :: rest).
Proof.
  intros Hreach.
  assert (Hu : unique_iface m).
  { induction Hreach as [client m Hnew|m addr iface s_ip4 spawn _ IH
                         |m client st _ IH|m client _ IH|m provider _ IH|m _ IH].
    - unfold nm_dhcp_manager_new in Hnew.
      intros p1 p2 c1 c2 H1.
      repeat case_match; simplify_eq; simpl in H1; by rewrite lookup_empty in H1.
    - by apply unique_iface_start.
    - destruct st; simpl; try done; by apply unique_iface_remove.
    - by apply unique_iface_remove.
    - done.
    - by apply unique_iface_dispose. }
  split; [done|].
  intros addr iface s_ip4 spawn r.
  split; [by apply unique_iface_start|].
  destruct (iface_free_after_removal m iface Hu) as [_ Hfree].
  subst r. unfold nm_dhcp_manager_start_client.
  destruct (get_client_for_iface m iface) as [old|] eqn:Hf; simpl in Hfree |- *.
  - split.
    + intros p c Hp Hc. destruct (decide (p = addr)) as [|Hne]; [done|].
      exfalso. destruct spawn as [pid|]; simpl in Hp.
      * rewrite insert_insert_eq, lookup_insert_ne in Hp by done.
        by apply (Hfree p c).
      * apply lookup_delete_Some in Hp as [_ Hp].
        rewrite insert_insert_eq, lookup_insert_ne in Hp by done.
        by apply (Hfree p c).
    + intros old' [= <-]. destruct spawn; simpl; by eexists.
  - split; [|done].
    intros p c Hp Hc. destruct (decide (p = addr)) as [|Hne]; [done|].
    exfalso. destruct spawn as [pid|]; simpl in Hp.
    * rewrite insert_insert_eq, lookup_insert_ne in Hp by done.
      by apply (Hfree p c).
    * apply lookup_delete_Some in Hp as [_ Hp].
      rewrite insert_insert_eq, lookup_insert_ne in Hp by done.
      by apply (Hfree p c).
Qed.

Lemma one_client_per_interface_witness :
  unique_iface
    (manager_after
       (nm_dhcp_manager_start_client
          (manager_after
             (nm_dhcp_manager_start_client dhcpcd_manager 1 "eth0" None (Some 1234)))
          2 "eth0" None (Some 1300))).
Proof.
  refine (proj1 (one_client_per_interface build _ _)).
  apply reach_start; [|reflexivity].
  apply reach_start; [|reflexivity].
  apply (reach_new build "dhcpcd"). reflexivity.
Defined.

(** C4, as the code has it. On a state-changed signal for ABEND or END, and
    on a timeout signal, the manager removes the client from the registry
    and no later event can be dispatched to it.  On a state-changed signal
    for any other state, FAIL among them, the manager is left as it was. *)
Theorem removal_on_abend_end_timeout (m : NMDHCPManagerPrivate) (client : positive) :
  gone (client_state_changed m client DHC_ABEND) client /\
  gone (client_state_changed m client DHC_END) client /\
  gone (client_timeout m client) client /\
  forall new_state,
    new_state <> DHC_ABEND -> new_state <> DHC_END ->
    client_state_changed m client new_state = m.
Proof.
  repeat split; try apply (removed_is_gone m client).
  intros st Ha He. by destruct st.
Qed.

(** C4 as stated fails: after a state-changed signal for FAIL the client is
    still registered and the next event for its pid is delivered to it. *)
Lemma fail_keeps_client_registered :
  clients (client_state_changed eth0_manager 5 DHC_FAIL) !! 5%positive = Some eth0_client /\
  nm_dhcp_manager_handle_event glibc64 (client_state_changed eth0_manager 5 DHC_FAIL)
                               (bound_event "1234") 0
  = Delivered 5 "BOUND".
Proof. repeat split; reflexivity. Qed.

(** C5, as the code has it. The pid text is read by strtoul in base 10.
    When its digits denote a number that does not fit in an unsigned long
    the event is dropped with the conversion warning and reaches no client.
    An event is delivered only to a registered client whose pid is the
    number strtoul read, converted to GPid. *)
Theorem pid_overflow_rejected (P : Platform) (m : NMDHCPManagerPrivate)
    (options : gmap string GValue) (errno : Z) (ibuf pbuf : list Z) :
  get_option options "interface" = Some ibuf ->
  get_option options "pid" = Some pbuf ->
  (pid_out_of_range P (c_str pbuf) ->
     nm_dhcp_manager_handle_event P m options errno = Dropped CouldNotConvertPid) /\
  (forall client reason,
     nm_dhcp_manager_handle_event P m options errno = Delivered client reason ->
     exists c, clients m !! client = Some c /\
               client_iface c = c_str ibuf /\
               client_pid c = to_int (fst (strtoul P (c_str pbuf) errno))).
Proof.
  intros Hi Hp. split.
  - intros (v & Hv & Hbig).
    unfold nm_dhcp_manager_handle_event. rewrite Hi, Hp.
    unfold strtoul. destruct (subject (c_str pbuf)) as [neg o]. simpl in Hv. subst o.
    destruct (v >? ULONG_MAX P) eqn:E.
    + by rewrite Z.eqb_refl.
    + rewrite Z.gtb_ltb in E. apply Z.ltb_ge in E. lia.
  - intros client reason Hd.
    apply delivered_client in Hd as (c & ib & pb & Hc & Hib & Hpb & Hif & Hpid).
    exists c. by simplify_eq.
Qed.

Lemma pid_overflow_rejected_witness :
  nm_dhcp_manager_handle_event glibc64 eth0_manager
    (bound_event "99999999999999999999") 0
  = Dropped CouldNotConvertPid.
Proof.
  apply (pid_overflow_rejected glibc64 eth0_manager
           (bound_event "99999999999999999999") 0
           (bytes_of "eth0" ++ [0]) (bytes_of "99999999999999999999" ++ [0])).
  - reflexivity.
  - reflexivity.
  - exists 99999999999999999999. split; reflexivity.
Defined.

(** C5 as stated fails: the pid text "1234xyz" is not a well-formed decimal
    number, yet the event is delivered to the client whose pid is 1234. *)
Lemma malformed_pid_is_delivered :
  nm_dhcp_manager_handle_event glibc64 eth0_manager (bound_event "1234xyz") 0
  = Delivered 5 "BOUND".
Proof. reflexivity. Qed.

(** C2 on the code. A manager constructed with the dhcpcd selector records
    NM_TYPE_DHCP_DHCPCD as its client type, yet every start, whatever the
    manager's client type, creates and registers a client of type
    NM_TYPE_DHCP_DHCLIENT. *)
Theorem start_client_constructs_dhclient :
  nm_dhcp_manager_new build "dhcpcd" = Some dhcpcd_manager /\
  client_type dhcpcd_manager = NM_TYPE_DHCP_DHCPCD /\
  forall (m : NMDHCPManagerPrivate) (addr : positive) (iface : string)
         (s_ip4 : option NMSettingIP4Config) (pid : Z),
    let r := nm_dhcp_manager_start_client m addr iface s_ip4 (Some pid) in
    clients (manager_after r) !! addr
    = Some {| client_gtype := NM_TYPE_DHCP_DHCLIENT; client_iface := iface;
              client_pid := pid |} /\
    In (ENew addr NM_TYPE_DHCP_DHCLIENT iface) (effects r).
Proof.
  split; [reflexivity|]. split; [reflexivity|].
  intros m addr iface s_ip4 pid r. subst r.
  unfold nm_dhcp_manager_start_client.
  destruct (get_client_for_iface m iface); simpl.
  - split; [by rewrite lookup_insert_eq|]. right. right. by left.
  - split; [by rewrite lookup_insert_eq|]. by left.
Qed.

(** * Further properties of the code *)

(** ** Splitting the routes text *)

Section Splitting.

Lemma split_on_nonempty (d : ascii) (s : string) : split_on d s <> [].
Proof.
  destruct s as [|c rest]; simpl; [done|].
  destruct (Ascii.eqb c d); [done|]. by destruct (split_on d rest).
Qed.

Lemma split_on_concat (d : ascii) (s : string) :
  String.concat (String d EmptyString) (split_on d s) = s.
Proof.
  induction s as [|c rest IH]; simpl; [done|].
  pose proof (split_on_nonempty d rest) as Hne.
  destruct (Ascii.eqb c d) eqn:E.
  - apply Ascii.eqb_eq in E as ->.
    destruct (split_on d rest) as [|tok toks]; [done|].
    simpl in *. by rewrite IH.
  - destruct (split_on d rest) as [|tok toks]; [done|].
    destruct toks as [|tok2 toks]; simpl in *; by rewrite <- IH.
Qed.

Lemma split_on_length (s : string) :
  List.length (split_on " " s) = S (spaces s).
Proof.
  unfold spaces. induction s as [|c rest IH]; simpl; [done|].
  destruct (Ascii.eqb c " ") eqn:E.
  - apply Ascii.eqb_eq in E as ->. simpl. by rewrite IH.
  - apply Ascii.eqb_neq in E.
    destruct (ascii_dec c " ") as [->|_]; [done|].
    destruct (split_on " " rest); simpl in *; lia.
Qed.

End Splitting.

Lemma g_strsplit_length (s : string) :
  List.length (g_strsplit s " ") = match s with
                                   | EmptyString => 0%nat
                                   | _ => S (spaces s)
                                   end.
Proof. destruct s as [|c rest]; [done|]. apply split_on_length. Qed.

(** X1. The token vector is a faithful cut of the option text: joined with
    single spaces it gives the text back, and a non-empty text has one
    token more than it has spaces (an empty text has no token). *)
Theorem g_strsplit_round_trip (s : string) :
  String.concat " " (g_strsplit s " ") = s /\
  List.length (g_strsplit s " ") = match s with
                                   | EmptyString => 0%nat
                                   | _ => S (spaces s)
                                   end.
Proof.
  split; [|apply g_strsplit_length].
  destruct s as [|c rest]; [done|]. apply split_on_concat.
Qed.

(** ** Which option text is processed, and when nothing is *)

Section Selection.

Variable P : Platform.

Lemma classless_lookup (s : string) : lookup_routes_option (classless s) = Some s.
Proof. reflexivity. Qed.

Lemma process_depends_on_text (options : gmap string string) (cfg : NMIP4Config)
      (gw : Z) (s : string) :
  lookup_routes_option options = Some s ->
  real_ip4_process_classless_routes P options cfg gw
  = real_ip4_process_classless_routes P (classless s) cfg gw.
Proof.
  intros H. unfold real_ip4_process_classless_routes.
  by rewrite H, classless_lookup.
Qed.

Lemma route_pair_never_says_invalid (st : State) (r0 r1 : string) :
  In InfoRoutesInvalid (log (route_pair P st r0 r1)) -> In InfoRoutesInvalid (log st).
Proof.
  unfold route_pair.
  destruct (read_cidr P r0) as [addr [c|cidr]]; simpl.
  2:{ rewrite in_app_iff. simpl. intros [?|[?|[]]]; done. }
  destruct (inet_pton addr) as [a|]; simpl.
  2:{ rewrite in_app_iff. simpl. intros [?|[?|[]]]; done. }
  destruct (inet_pton r1) as [g|]; simpl.
  2:{ rewrite in_app_iff. simpl. intros [?|[?|[]]]; done. }
  destruct ((c =? 0) && (a =? 0)); simpl; [done|].
  rewrite in_app_iff. simpl. intros [?|[?|[]]]; done.
Qed.

Lemma route_loop_never_says_invalid (l : list string) (st : State) :
  In InfoRoutesInvalid (log (route_loop P l st)) -> In InfoRoutesInvalid (log st).
Proof.
  revert st. induction l as [|x|r0 r1 l IH] using pairs_ind; intros st; [done..|].
  simpl. intros H. by apply IH, route_pair_never_says_invalid in H.
Qed.

End Selection.

(** X2. The Microsoft variant of the option is a fallback only: when
    new_classless_static_routes is present its text is what is processed,
    even if it is empty, and new_ms_classless_static_routes is not looked
    at; when it is absent the Microsoft text is processed in the same way. *)
Theorem ms_option_is_fallback (P : Platform) (options : gmap string string)
    (cfg : NMIP4Config) (gw : Z) (s : string) :
  (options !! "new_classless_static_routes"%string = Some s ->
   real_ip4_process_classless_routes P options cfg gw
   = real_ip4_process_classless_routes P (classless s) cfg gw) /\
  (options !! "new_classless_static_routes"%string = None ->
   options !! "new_ms_classless_static_routes"%string = Some s ->
   real_ip4_process_classless_routes P options cfg gw
   = real_ip4_process_classless_routes P (classless s) cfg gw).
Proof.
  split.
  - intros H. apply process_depends_on_text. unfold lookup_routes_option. by rewrite H.
  - intros H1 H2. apply process_depends_on_text. unfold lookup_routes_option.
    by rewrite H1, H2.
Qed.

(** X3. With neither option in the table, or with an empty text selected,
    the function does nothing: it returns FALSE, leaves the configuration
    and the gateway cell alone and logs nothing. *)
Theorem no_routes_text_no_effect (P : Platform) (options : gmap string string)
    (cfg : NMIP4Config) (gw : Z) :
  lookup_routes_option options = None \/ lookup_routes_option options = Some EmptyString ->
  real_ip4_process_classless_routes P options cfg gw = on_entry cfg gw.
Proof.
  intros [H|H]; unfold real_ip4_process_classless_routes; by rewrite H.
Qed.

Lemma no_routes_text_no_effect_witness :
  real_ip4_process_classless_routes glibc64
    {[ "new_classless_static_routes"%string := EmptyString;
       "new_ms_classless_static_routes"%string := "172.16.0.0/12 10.0.0.1"%string ]}
    empty_config 7
  = on_entry empty_config 7.
Proof.
  apply (no_routes_text_no_effect glibc64). right. reflexivity.
Defined.

(** X4. A non-empty routes text is thrown away as a whole, with the
    'invalid' message, exactly when it holds an even number of space
    characters; a doubled, leading or trailing space is enough for that. *)
Theorem rejected_iff_even_spaces (P : Platform) (options : gmap string string)
    (cfg : NMIP4Config) (gw : Z) (str : string) :
  lookup_routes_option options = Some str ->
  (In InfoRoutesInvalid (log (real_ip4_process_classless_routes P options cfg gw)) <->
   str <> EmptyString /\ Nat.Even (spaces str)) /\
  (str <> EmptyString -> Nat.Even (spaces str) ->
   real_ip4_process_classless_routes P options cfg gw
   = say (on_entry cfg gw) InfoRoutesInvalid).
Proof.
  intros Hstr. unfold real_ip4_process_classless_routes. rewrite Hstr.
  destruct str as [|c s]; [split; [split; [done|by intros [? _]]|done]|].
  change (String.length (String c s) =? 0)%nat with false. cbv iota.
  pose proof (g_strsplit_length (String c s)) as Hlen.
  set (routes := g_strsplit (String c s) " ") in *.
  destruct (g_strv_length routes =? 0) eqn:E0.
  { unfold g_strv_length in E0. apply Z.eqb_eq in E0. simpl in Hlen. lia. }
  destruct (Nat.Even_or_Odd (spaces (String c s))) as [Hev|Hodd].
  - assert (Ho : Nat.Odd (List.length routes)).
    { destruct Hev as [k Hk]. exists k. simpl in Hlen. lia. }
    rewrite (strv_length_odd _ Ho). simpl. split; [|done].
    split; [done|]. intros _. by left.
  - assert (He : Nat.Even (List.length routes)).
    { destruct Hodd as [k Hk]. exists (S k). simpl in Hlen. lia. }
    rewrite (strv_length_even _ He). simpl. split.
    + split.
      * intros Hin. by apply route_loop_never_says_invalid in Hin.
      * intros [_ Hev]. destruct (Nat.Even_Odd_False _ Hev Hodd).
    + intros _ Hev. destruct (Nat.Even_Odd_False _ Hev Hodd).
Qed.

Lemma rejected_iff_even_spaces_witness :
  real_ip4_process_classless_routes glibc64
    (classless "10.0.0.0/8 192.0.2.1 ") empty_config 0
  = say (on_entry empty_config 0) InfoRoutesInvalid.
Proof.
  apply (rejected_iff_even_spaces glibc64 (classless "10.0.0.0/8 192.0.2.1 ")
           empty_config 0 "10.0.0.0/8 192.0.2.1 ").
  - reflexivity.
  - done.
  - exists 1%nat. reflexivity.
Defined.

(** ** Addresses *)

Section Addresses.

Lemma digit_of_range (ch : ascii) (d : Z) : digit_of ch = Some d -> 0 <= d <= 9.
Proof.
  unfold digit_of. destruct ((48 <=? code ch) && (code ch <=? 57)) eqn:E; [|done].
  intros [= <-]. apply andb_true_iff in E as [E1 E2]. lia.
Qed.

(** The scanner keeps [done] and [tp] octets and counts them right. *)
Lemma inet_pton4_octets (src : string) :
  forall (done : list Z) (tp : Z) (saw : bool) (octets : Z) (res : list Z),
    Forall is_octet done -> 0 <= tp <= 255 -> 0 <= octets <= 4 ->
    Z.of_nat (List.length done) = (if saw then octets - 1 else octets) ->
    (saw = false -> octets < 4) ->
    inet_pton4 src done tp saw octets = Some res ->
    List.length res = 4%nat /\ Forall is_octet res.
Proof.
  induction src as [|ch rest IH]; intros done tp saw octets res Hd Htp Ho Hlen Hsaw; simpl.
  - destruct (octets <? 4) eqn:E; [done|]. intros [= <-].
    apply Z.ltb_ge in E. destruct saw; [|specialize (Hsaw eq_refl); lia].
    split.
    + rewrite length_app. simpl. lia.
    + apply Forall_app. split; [done|]. constructor; [unfold is_octet; lia|done].
  - destruct (digit_of ch) as [d|] eqn:Hdig.
    + apply digit_of_range in Hdig.
      destruct (saw && (tp =? 0)); [done|].
      destruct (tp * 10 + d >? 255) eqn:E255; [done|].
      rewrite Z.gtb_ltb in E255. apply Z.ltb_ge in E255.
      destruct saw.
      * apply IH; try done; lia.
      * destruct (octets + 1 >? 4) eqn:E4; [done|].
        rewrite Z.gtb_ltb in E4. apply Z.ltb_ge in E4.
        apply IH; try done; lia.
    + destruct (Ascii.eqb ch "." && saw) eqn:Edot; [|done].
      apply andb_true_iff in Edot as [_ ->].
      destruct (octets =? 4) eqn:E4; [done|]. apply Z.eqb_neq in E4.
      apply IH; try done; try lia.
      * apply Forall_app. split; [done|]. constructor; [unfold is_octet; lia|done].
      * rewrite length_app. simpl. lia.
Qed.

Lemma inet_pton_bound (src : string) (a : Z) :
  inet_pton src = Some a -> 0 <= a < 2 ^ 32.
Proof.
  unfold inet_pton. destruct (inet_pton4 src [] 0 false 0) as [res|] eqn:H; [|done].
  intros [= <-].
  apply inet_pton4_octets in H as [Hlen Hall]; try done; try lia.
  destruct res as [|o1 [|o2 [|o3 [|o4 [|? ?]]]]]; try done.
  repeat (apply Forall_cons in Hall as [? Hall]).
  unfold is_octet in *. cbn. lia.
Qed.

End Addresses.

(** ** What the loop makes of the pairs *)

Section LoopOutcome.

Variable P : Platform.

Lemma token_prefix_rejected (r0 cidr : string) :
  cidr_rejected P r0 = Some cidr -> token_prefix P r0 = None.
Proof.
  unfold token_prefix. intros H. rewrite H.
  unfold cidr_rejected in H. by destruct (strchr_cut r0 "/") as [[? ?]|].
Qed.

Lemma route_pair_have_routes (st : State) (r0 r1 : string) :
  have_routes (route_pair P st r0 r1) = have_routes st || pair_accepted P (r0, r1).
Proof.
  unfold route_pair, pair_accepted. simpl.
  destruct (cidr_rejected P r0) as [cidr|] eqn:Hc.
  { rewrite (read_cidr_rejected _ _ _ Hc). simpl. by rewrite orb_false_r. }
  destruct (read_cidr_accepted _ _ Hc) as (c & _ & ->).
  destruct (inet_pton (dest_text r0)) as [a|]; simpl; [|by rewrite orb_false_r].
  destruct (inet_pton r1) as [g|]; simpl; [|by rewrite orb_false_r].
  rewrite orb_true_r. by destruct ((c =? 0) && (a =? 0)).
Qed.

Lemma route_pair_config (st : State) (r0 r1 : string) :
  config_routes (ip4_config (route_pair P st r0 r1))
  = config_routes (ip4_config st) ++ option_list (pair_route P (r0, r1)).
Proof.
  unfold route_pair, pair_route. simpl.
  destruct (cidr_rejected P r0) as [cidr|] eqn:Hc.
  { rewrite (read_cidr_rejected _ _ _ Hc), (token_prefix_rejected _ _ Hc). simpl.
    by rewrite app_nil_r. }
  destruct (read_cidr_accepted _ _ Hc) as (c & -> & ->).
  destruct (inet_pton (dest_text r0)) as [a|] eqn:Ha; simpl; [|by rewrite app_nil_r].
  destruct (inet_pton r1) as [g|] eqn:Hg; simpl; [|by rewrite app_nil_r].
  destruct ((c =? 0) && (a =? 0)); simpl; [by rewrite app_nil_r|].
  apply inet_pton_bound in Ha, Hg.
  unfold nm_ip4_config_take_route, to_uint32 at 1 3. simpl.
  by rewrite !Z.mod_small by lia.
Qed.

Lemma route_loop_have_routes (l : list string) (st : State) :
  have_routes (route_loop P l st)
  = have_routes st || existsb (pair_accepted P) (pairs_of l).
Proof.
  revert st. induction l as [|x|r0 r1 l IH] using pairs_ind; intros st;
    [by rewrite orb_false_r..|].
  simpl. by rewrite IH, route_pair_have_routes, orb_assoc.
Qed.

Lemma route_loop_config (l : list string) (st : State) :
  config_routes (ip4_config (route_loop P l st))
  = config_routes (ip4_config st) ++ omap (pair_route P) (pairs_of l).
Proof.
  revert st. induction l as [|x|r0 r1 l IH] using pairs_ind; intros st;
    [by rewrite app_nil_r..|].
  simpl. rewrite IH, route_pair_config, <- app_assoc. f_equal.
  by destruct (pair_route P (r0, r1)).
Qed.

(** The function is the loop for an even token count and the bare
    'invalid' message for an odd one. *)
Lemma process_cases (options : gmap string string) (cfg : NMIP4Config) (gw : Z)
      (str : string) :
  lookup_routes_option options = Some str ->
  real_ip4_process_classless_routes P options cfg gw
  = if Nat.even (List.length (g_strsplit str " "))
    then route_loop P (g_strsplit str " ") (on_entry cfg gw)
    else say (on_entry cfg gw) InfoRoutesInvalid.
Proof.
  intros Hstr. destruct (Nat.even (List.length (g_strsplit str " "))) eqn:E.
  - apply process_is_loop; [done|]. by apply Nat.even_spec.
  - assert (Hodd : Nat.Odd (List.length (g_strsplit str " "))).
    { apply Nat.odd_spec. unfold Nat.odd. by rewrite E. }
    unfold real_ip4_process_classless_routes. rewrite Hstr.
    destruct str as [|c s]; [done|].
    change (String.length (String c s) =? 0)%nat with false. cbv iota.
    rewrite (strv_length_odd _ Hodd).
    destruct (g_strv_length (g_strsplit (String c s) " ") =? 0) eqn:E0; [|done].
    apply Z.eqb_eq in E0. pose proof (strv_length_odd _ Hodd) as H1.
    rewrite E0 in H1. done.
Qed.

End LoopOutcome.

(** X6. The return value tells whether some pair passed all three checks:
    have_routes is true exactly when the token count is even and at least
    one pair has an accepted cidr part, a valid destination and a valid next
    hop (a default-route pair counts too). *)
Theorem have_routes_iff_pair_accepted (P : Platform) (options : gmap string string)
    (cfg : NMIP4Config) (gw : Z) (str : string) :
  lookup_routes_option options = Some str ->
  have_routes (real_ip4_process_classless_routes P options cfg gw)
  = Nat.even (List.length (g_strsplit str " ")) &&
    existsb (pair_accepted P) (pairs_of (g_strsplit str " ")).
Proof.
  intros Hstr. rewrite (process_cases P options cfg gw str Hstr).
  destruct (Nat.even (List.length (g_strsplit str " "))); [|done].
  by rewrite route_loop_have_routes.
Qed.

Lemma have_routes_iff_pair_accepted_witness :
  have_routes (real_ip4_process_classless_routes glibc64
                 (classless "10.0.0.0/8 bogus 0.0.0.0/0 192.0.2.254") empty_config 0)
  = Nat.even (List.length (g_strsplit "10.0.0.0/8 bogus 0.0.0.0/0 192.0.2.254" " ")) &&
    existsb (pair_accepted glibc64)
            (pairs_of (g_strsplit "10.0.0.0/8 bogus 0.0.0.0/0 192.0.2.254" " ")).
Proof.
  apply (have_routes_iff_pair_accepted glibc64
           (classless "10.0.0.0/8 bogus 0.0.0.0/0 192.0.2.254") empty_config 0).
  reflexivity.
Defined.

(** X7. Routes are stored in the order of the text, after the routes the
    configuration already holds, none of which is touched: one route per
    accepted pair that is not a default route, with the parsed destination
    and next hop unchanged; nothing is stored for an odd token count. *)
Theorem routes_stored_in_text_order (P : Platform) (options : gmap string string)
    (cfg : NMIP4Config) (gw : Z) (str : string) :
  lookup_routes_option options = Some str ->
  config_routes (ip4_config (real_ip4_process_classless_routes P options cfg gw))
  = config_routes cfg ++
    (if Nat.even (List.length (g_strsplit str " "))
     then omap (pair_route P) (pairs_of (g_strsplit str " "))
     else []).
Proof.
  intros Hstr. rewrite (process_cases P options cfg gw str Hstr).
  destruct (Nat.even (List.length (g_strsplit str " "))).
  - by rewrite route_loop_config.
  - simpl. by rewrite app_nil_r.
Qed.

Lemma routes_stored_in_text_order_witness :
  config_routes (ip4_config (real_ip4_process_classless_routes glibc64
     (classless "10.0.0.0/8 192.0.2.1 bad 192.0.2.9 172.16.0.0/12 192.0.2.2")
     {| config_routes := [route_10_8] |} 0))
  = config_routes {| config_routes := [route_10_8] |} ++
    (if Nat.even (List.length
          (g_strsplit "10.0.0.0/8 192.0.2.1 bad 192.0.2.9 172.16.0.0/12 192.0.2.2" " "))
     then omap (pair_route glibc64)
            (pairs_of
               (g_strsplit "10.0.0.0/8 192.0.2.1 bad 192.0.2.9 172.16.0.0/12 192.0.2.2" " "))
     else []).
Proof.
  apply (routes_stored_in_text_order glibc64
     (classless "10.0.0.0/8 192.0.2.1 bad 192.0.2.9 172.16.0.0/12 192.0.2.2")
     {| config_routes := [route_10_8] |} 0).
  reflexivity.
Defined.

(** ** The manager: construction, lookups, start, dispose *)

Section ManagerFacts.

Implicit Types (m : NMDHCPManagerPrivate).

Lemma length_eqb_0 (s : string) : (String.length s =? 0)%nat = true <-> s = EmptyString.
Proof. destruct s; simpl; split; done. Qed.

Lemma reachable_unique_iface (B : BuildConfig) m : reachable B m -> unique_iface m.
Proof.
  induction 1 as [client m Hnew|m addr iface s_ip4 spawn _ IH
                  |m client st _ IH|m client _ IH|m provider _ IH|m _ IH].
  - unfold nm_dhcp_manager_new in Hnew. intros p1 p2 c1 c2 H1.
    repeat case_match; simplify_eq; simpl in H1; by rewrite lookup_empty in H1.
  - by apply unique_iface_start.
  - destruct st; simpl; try done; by apply unique_iface_remove.
  - by apply unique_iface_remove.
  - done.
  - by apply unique_iface_dispose.
Qed.

Lemma find_hit {A : Type} (f : A -> bool) (l : list A) (x : A) :
  In x l -> f x = true -> exists y, List.find f l = Some y.
Proof.
  intros Hin Hf. destruct (List.find f l) as [y|] eqn:E; [by exists y|].
  pose proof (find_none _ _ E _ Hin). congruence.
Qed.

Lemma get_client_for_iface_found m (p : positive) (c : NMDHCPClient) :
  unique_iface m -> clients m !! p = Some c ->
  get_client_for_iface m (client_iface c) = Some p.
Proof.
  intros Hu Hp.
  assert (Hin : In (p, c) (map_to_list (clients m))).
  { by apply list_elem_of_In, elem_of_map_to_list. }
  destruct (find_hit (fun kv => String.eqb (client_iface c) (client_iface kv.2))
                     _ _ Hin (String.eqb_refl _)) as ([p' c'] & Hf).
  pose proof (get_client_for_iface_some m (client_iface c) p') as Hs.
  unfold get_client_for_iface in *. rewrite Hf in *. simpl in *.
  destruct (Hs eq_refl) as (c'' & Hp' & Hi).
  destruct (decide (p' = p)) as [->|Hne]; [done|].
  by destruct (Hu p' p c'' c Hp' Hp Hne).
Qed.

Lemma get_client_for_pid_found m (p : positive) (c : NMDHCPClient) :
  clients m !! p = Some c ->
  (forall p' c', clients m !! p' = Some c' -> client_pid c' = client_pid c -> p' = p) ->
  get_client_for_pid m (client_pid c) = Some p.
Proof.
  intros Hp Hu.
  assert (Hin : In (p, c) (map_to_list (clients m))).
  { by apply list_elem_of_In, elem_of_map_to_list. }
  destruct (find_hit (fun kv => client_pid kv.2 =? client_pid c)
                     _ _ Hin (Z.eqb_refl _)) as ([p' c'] & Hf).
  pose proof (get_client_for_pid_some m (client_pid c) p') as Hs.
  unfold get_client_for_pid in *. rewrite Hf in *. simpl in *.
  destruct (Hs eq_refl) as (c'' & Hp' & Hi).
  by rewrite (Hu p' c'' Hp' Hi).
Qed.

Lemma get_client_for_pid_none m (pid : Z) :
  (forall p c, clients m !! p = Some c -> client_pid c <> pid) ->
  get_client_for_pid m pid = None.
Proof.
  intros Hno. destruct (get_client_for_pid m pid) as [p|] eqn:E; [|done].
  apply get_client_for_pid_some in E as (c & Hc & Hpid). by destruct (Hno p c).
Qed.

(** The registry after the old client for [iface] was dropped. *)
Lemma start_clients m (addr : positive) (iface : string)
      (s_ip4 : option NMSettingIP4Config) (spawn : option Z) :
  let m1 := match get_client_for_iface m iface with
            | Some old => remove_client m old
            | None => m
            end in
  clients (manager_after (nm_dhcp_manager_start_client m addr iface s_ip4 spawn))
  = match spawn with
    | Some pid => <[addr := {| client_gtype := NM_TYPE_DHCP_DHCLIENT;
                               client_iface := iface; client_pid := pid |}]> (clients m1)
    | None => delete addr (clients m1)
    end.
Proof.
  unfold nm_dhcp_manager_start_client.
  destruct (get_client_for_iface m iface), spawn; simpl;
    rewrite ?insert_insert_eq, ?delete_insert_eq; done.
Qed.

Lemma start_keeps_settings m (addr : positive) (iface : string)
      (s_ip4 : option NMSettingIP4Config) (spawn : option Z) :
  let m' := manager_after (nm_dhcp_manager_start_client m addr iface s_ip4 spawn) in
  client_type m' = client_type m /\
  get_lease_config_func m' = get_lease_config_func m /\
  hostname_provider m' = hostname_provider m.
Proof.
  unfold nm_dhcp_manager_start_client.
  by destruct (get_client_for_iface m iface), spawn.
Qed.

Lemma dispose_fold (l : list (positive * NMDHCPClient)) m :
  let m' := fold_left (fun acc kv => remove_client acc kv.1) l m in
  client_type m' = client_type m /\
  get_lease_config_func m' = get_lease_config_func m /\
  hostname_provider m' = hostname_provider m /\
  forall k, In k (List.map fst l) \/ clients m !! k = None -> clients m' !! k = None.
Proof.
  revert m. induction l as [|[p c] l IH]; intros m; simpl.
  - repeat split. by intros k [[]|?].
  - destruct (IH (remove_client m p)) as (H1 & H2 & H3 & H4).
    repeat split; try done. intros k Hk. apply H4. simpl.
    destruct (decide (p = k)) as [->|Hne]; [right; apply lookup_delete_eq|].
    rewrite lookup_delete_ne by done. tauto.
Qed.

End ManagerFacts.

Lemma manager_new_empty (B : BuildConfig) (client : string) (m : NMDHCPManagerPrivate) :
  nm_dhcp_manager_new B client = Some m -> clients m = ∅ /\ reader_matches_type m.
Proof.
  unfold nm_dhcp_manager_new, reader_matches_type.
  repeat case_match; intros [= <-]; simpl; split; try done; [by left|by right].
Qed.

Lemma dispose_clients (m : NMDHCPManagerPrivate) : clients (dispose m) = ∅.
Proof.
  destruct (dispose_fold (map_to_list (clients m)) m) as (_ & _ & _ & H4).
  apply map_eq. intros k. unfold dispose. rewrite lookup_empty. apply H4.
  destruct (clients m !! k) as [c|] eqn:Hk; [|by right].
  left. apply in_map_iff. exists (k, c). split; [done|].
  by apply list_elem_of_In, elem_of_map_to_list.
Qed.

(** X9. dispose takes every client out of the registry and changes nothing
    else of the manager. *)
Theorem dispose_empties_registry (m : NMDHCPManagerPrivate) :
  clients (dispose m) = ∅ /\
  client_type (dispose m) = client_type m /\
  get_lease_config_func (dispose m) = get_lease_config_func m /\
  hostname_provider (dispose m) = hostname_provider m.
Proof.
  destruct (dispose_fold (map_to_list (clients m)) m) as (H1 & H2 & H3 & _).
  split; [apply dispose_clients|done].
Qed.



(** X11. A start whose helper is spawned returns the new client, registers
    it under the helper's pid, and from then on a lookup by the interface
    finds the new client and no other. *)
Theorem start_success_registers_client (B : BuildConfig) (m : NMDHCPManagerPrivate)
    (addr : positive) (iface : string) (s_ip4 : option NMSettingIP4Config) (pid : Z) :
  reachable B m ->
  let r := nm_dhcp_manager_start_client m addr iface s_ip4 (Some pid) in
  returned r = Some addr /\
  clients (manager_after r) !! addr
  = Some {| client_gtype := NM_TYPE_DHCP_DHCLIENT; client_iface := iface;
            client_pid := pid |} /\
  get_client_for_iface (manager_after r) iface = Some addr.
Proof.
  intros Hreach r.
  pose proof (reachable_unique_iface B m Hreach) as Hu.
  assert (Hc : clients (manager_after r) !! addr
               = Some {| client_gtype := NM_TYPE_DHCP_DHCLIENT; client_iface := iface;
                         client_pid := pid |}).
  { subst r. rewrite start_clients. apply lookup_insert_eq. }
  split; [|split; [done|]].
  - subst r. unfold nm_dhcp_manager_start_client.
    by destruct (get_client_for_iface m iface).
  - apply (get_client_for_iface_found (manager_after r) addr _
             (unique_iface_start m addr iface s_ip4 (Some pid) Hu) Hc).
Qed.

Lemma start_success_registers_client_witness :
  get_client_for_iface
    (manager_after (nm_dhcp_manager_start_client dhcpcd_manager 1 "eth0" None (Some 1234)))
    "eth0"
  = Some 1%positive.
Proof.
  apply (start_success_registers_client build dhcpcd_manager 1 "eth0" None 1234).
  apply (reach_new build "dhcpcd"). reflexivity.
Defined.

(** X12. A start whose helper cannot be spawned returns no client and
    leaves nobody registered for the interface: the new client is taken out
    again, and the client that was registered before stays stopped and
    removed. *)
Theorem start_failure_leaves_iface_free (B : BuildConfig) (m : NMDHCPManagerPrivate)
    (addr : positive) (iface : string) (s_ip4 : option NMSettingIP4Config) :
  reachable B m ->
  let r := nm_dhcp_manager_start_client m addr iface s_ip4 None in
  returned r = None /\
  clients (manager_after r) !! addr = None /\
  get_client_for_iface (manager_after r) iface = None /\
  (forall old, get_client_for_iface m iface = Some old ->
     clients (manager_after r) !! old = None /\ In (EStop old) (effects r)).
Proof.
  intros Hreach r.
  pose proof (reachable_unique_iface B m Hreach) as Hu.
  destruct (iface_free_after_removal m iface Hu) as [_ Hfree].
  assert (Hcl := start_clients m addr iface s_ip4 None). fold r in Hcl. simpl in Hcl.
  split; [|split; [|split]].
  - subst r. unfold nm_dhcp_manager_start_client.
    by destruct (get_client_for_iface m iface).
  - rewrite Hcl. apply lookup_delete_eq.
  - destruct (get_client_for_iface (manager_after r) iface) as [q|] eqn:E; [|done].
    apply get_client_for_iface_some in E as (d & Hd & Hi).
    rewrite Hcl in Hd. apply lookup_delete_Some in Hd as [_ Hd].
    by destruct (Hfree q d Hd).
  - intros old Hold. split.
    + rewrite Hcl, Hold. simpl.
      destruct (decide (addr = old)) as [->|Hne]; [apply lookup_delete_eq|].
      rewrite lookup_delete_ne by done. apply lookup_delete_eq.
    + subst r. unfold nm_dhcp_manager_start_client. rewrite Hold. simpl. by left.
Qed.

Lemma start_failure_leaves_iface_free_witness :
  get_client_for_iface
    (manager_after
       (nm_dhcp_manager_start_client
          (manager_after
             (nm_dhcp_manager_start_client dhcpcd_manager 1 "eth0" None (Some 1234)))
          2 "eth0" None None))
    "eth0"
  = None.
Proof.
  apply (start_failure_leaves_iface_free build
           (manager_after
              (nm_dhcp_manager_start_client dhcpcd_manager 1 "eth0" None (Some 1234)))
           2 "eth0" None).
  apply reach_start; [|reflexivity].
  apply (reach_new build "dhcpcd"). reflexivity.
Defined.

(** X13. A start touches the registry only at the address of the new client
    and at the client it found for the interface: every other entry, and
    the manager's type, lease reader and hostname provider, are as before. *)
Theorem start_leaves_other_clients (m : NMDHCPManagerPrivate) (addr : positive)
    (iface : string) (s_ip4 : option NMSettingIP4Config) (spawn : option Z) :
  let m' := manager_after (nm_dhcp_manager_start_client m addr iface s_ip4 spawn) in
  (forall p, p <> addr -> get_client_for_iface m iface <> Some p ->
             clients m' !! p = clients m !! p) /\
  client_type m' = client_type m /\
  get_lease_config_func m' = get_lease_config_func m /\
  hostname_provider m' = hostname_provider m.
Proof.
  intros m'. split; [|apply start_keeps_settings].
  intros p Hne Hold. subst m'. rewrite start_clients.
  assert (Hm1 : clients (match get_client_for_iface m iface with
                         | Some old => remove_client m old
                         | None => m
                         end) !! p = clients m !! p).
  { destruct (get_client_for_iface m iface) as [old|]; [|done].
    simpl. apply lookup_delete_ne. congruence. }
  destruct spawn; [rewrite lookup_insert_ne by done|rewrite lookup_delete_ne by done];
    exact Hm1.
Qed.

(** X14. In every reachable state every registered client was created as a
    dhclient client, whatever back-end the manager was constructed for. *)
Theorem registered_clients_are_dhclient (B : BuildConfig) (m : NMDHCPManagerPrivate) :
  reachable B m ->
  forall p c, clients m !! p = Some c -> client_gtype c = NM_TYPE_DHCP_DHCLIENT.
Proof.
  induction 1 as [client m Hnew|m addr iface s_ip4 spawn _ IH
                  |m client st _ IH|m client _ IH|m provider _ IH|m _ IH]; intros p c Hp.
  - destruct (manager_new_empty B client m Hnew) as [He _].
    rewrite He in Hp. by rewrite lookup_empty in Hp.
  - rewrite start_clients in Hp.
    assert (Hm1 : forall q d,
               clients (match get_client_for_iface m iface with
                        | Some old => remove_client m old
                        | None => m
                        end) !! q = Some d -> client_gtype d = NM_TYPE_DHCP_DHCLIENT).
    { intros q d Hq. destruct (get_client_for_iface m iface) as [old|]; [|by eapply IH].
      simpl in Hq. apply lookup_delete_Some in Hq as [_ Hq]. by eapply IH. }
    destruct spawn as [pid|].
    + apply lookup_insert_Some in Hp as [[_ <-]|[_ Hp]]; [done|by eapply Hm1].
    + apply lookup_delete_Some in Hp as [_ Hp]. by eapply Hm1.
  - destruct st; simpl in Hp; try (by eapply IH);
      apply lookup_delete_Some in Hp as [_ Hp]; by eapply IH.
  - simpl in Hp. apply lookup_delete_Some in Hp as [_ Hp]. by eapply IH.
  - by eapply IH.
  - rewrite dispose_clients in Hp. by rewrite lookup_empty in Hp.
Qed.

Lemma registered_clients_are_dhclient_witness :
  client_gtype eth0_client = NM_TYPE_DHCP_DHCLIENT.
Proof.
  apply (registered_clients_are_dhclient build
           (manager_after
              (nm_dhcp_manager_start_client dhcpcd_manager 1 "eth0" None (Some 1234)))
           ltac:(apply reach_start; [|reflexivity];
                 apply (reach_new build "dhcpcd"); reflexivity)
           1%positive eth0_client).
  reflexivity.
Defined.

(** X15. get_lease_config follows the selector in every reachable state:
    the lease reader is the one of the manager's client type, and a manager
    made for dhcpcd reports no lease configuration for any interface and
    connection. *)
Theorem lease_reader_follows_selector (B : BuildConfig) (m : NMDHCPManagerPrivate) :
  reachable B m ->
  reader_matches_type m /\
  (client_type m = NM_TYPE_DHCP_DHCPCD ->
   forall dhclient_reader iface uuid, call_lease_reader dhclient_reader m iface uuid = []).
Proof.
  intros Hreach.
  assert (Hm : reader_matches_type m).
  { induction Hreach as [client m Hnew|m addr iface s_ip4 spawn _ IH
                         |m client st _ IH|m client _ IH|m provider _ IH|m _ IH].
    - by destruct (manager_new_empty B client m Hnew) as [_ ?].
    - destruct (start_keeps_settings m addr iface s_ip4 spawn) as (H1 & H2 & _).
      unfold reader_matches_type in *. by rewrite H1, H2.
    - by destruct st.
    - done.
    - done.
    - destruct (dispose_fold (map_to_list (clients m)) m) as (H1 & H2 & _).
      unfold reader_matches_type, dispose in *. by rewrite H1, H2. }
  split; [done|]. intros Ht rd iface uuid.
  unfold call_lease_reader, nm_dhcp_manager_get_lease_config.
  destruct Hm as [[H1 _]|[_ ->]]; [congruence|done].
Qed.

Lemma lease_reader_follows_selector_witness :
  reader_matches_type
    (manager_after (nm_dhcp_manager_start_client dhcpcd_manager 1 "eth0" None (Some 1234))).
Proof.
  apply (lease_reader_follows_selector build).
  apply reach_start; [|reflexivity].
  apply (reach_new build "dhcpcd"). reflexivity.
Defined.

(** ** Event dispatch *)

Section Dispatch.

Variable P : Platform.

Lemma ULONG_MAX_pos : 0 < ULONG_MAX P.
Proof. unfold ULONG_MAX, long_bits. by destruct (data_model P). Qed.

(** Whether the pid text is refused does not depend on errno at entry,
    unless that was ERANGE already. *)
Lemma strtoul_refusal_errno (s : string) (e : Z) :
  e <> ERANGE ->
  fst (strtoul P s e) = fst (strtoul P s 0) /\
  ((fst (strtoul P s e) =? ULONG_MAX P) && (snd (strtoul P s e) =? ERANGE))
  = ((fst (strtoul P s 0) =? ULONG_MAX P) && (snd (strtoul P s 0) =? ERANGE)).
Proof.
  intros He. pose proof ULONG_MAX_pos as Hpos. unfold strtoul.
  destruct (subject s) as [neg [v|]]; cbn [fst snd].
  - destruct (v >? ULONG_MAX P); cbn [fst snd]; [done|]. split; [done|].
    apply Z.eqb_neq in He. rewrite He. by rewrite !andb_false_r.
  - split; [done|].
    assert (E0 : (0 =? ULONG_MAX P) = false) by (apply Z.eqb_neq; lia).
    by rewrite E0.
Qed.

End Dispatch.

(** X16. An event whose pid is held by exactly one registered client is
    judged against that client: it is delivered to it, with the decoded
    reason, when the event's interface is the client's; it is dropped as
    coming from an unexpected interface when it is not, whatever the reason;
    and it is dropped for want of a reason only after both checks passed. *)
Theorem event_dispatched_by_pid (P : Platform) (m : NMDHCPManagerPrivate)
    (options : gmap string GValue) (errno : Z) (ibuf pbuf : list Z)
    (p : positive) (c : NMDHCPClient) :
  get_option options "interface" = Some ibuf ->
  get_option options "pid" = Some pbuf ->
  ~ (fst (strtoul P (c_str pbuf) errno) = ULONG_MAX P /\
     snd (strtoul P (c_str pbuf) errno) = ERANGE) ->
  clients m !! p = Some c ->
  client_pid c = to_int (fst (strtoul P (c_str pbuf) errno)) ->
  (forall p' c', clients m !! p' = Some c' -> client_pid c' = client_pid c -> p' = p) ->
  nm_dhcp_manager_handle_event P m options errno
  = if String.eqb (c_str ibuf) (client_iface c)
    then match get_option options "reason" with
         | Some rbuf => Delivered p (c_str rbuf)
         | None => Dropped NoReason
         end
    else Dropped (UnexpectedInterface (c_str ibuf) (client_iface c)).
Proof.
  intros Hi Hp Hok Hc Hpid Huniq.
  unfold nm_dhcp_manager_handle_event. rewrite Hi, Hp.
  destruct (strtoul P (c_str pbuf) errno) as [temp e]. simpl in *.
  destruct ((temp =? ULONG_MAX P) && (e =? ERANGE)) eqn:E.
  { apply andb_true_iff in E as [E1 E2]. apply Z.eqb_eq in E1, E2. tauto. }
  rewrite <- Hpid, (get_client_for_pid_found m p c Hc Huniq), Hc. simpl.
  by destruct (String.eqb (c_str ibuf) (client_iface c)).
Qed.

Lemma event_dispatched_by_pid_witness :
  nm_dhcp_manager_handle_event glibc64 eth0_manager (bound_event "1234") 0
  = if String.eqb (c_str (bytes_of "eth0" ++ [0])) (client_iface eth0_client)
    then match get_option (bound_event "1234") "reason" with
         | Some rbuf => Delivered 5 (c_str rbuf)
         | None => Dropped NoReason
         end
    else Dropped (UnexpectedInterface (c_str (bytes_of "eth0" ++ [0]))
                                      (client_iface eth0_client)).
Proof.
  apply (event_dispatched_by_pid glibc64 eth0_manager (bound_event "1234") 0
           (bytes_of "eth0" ++ [0]) (bytes_of "1234" ++ [0]) 5 eth0_client).
  - reflexivity.
  - reflexivity.
  - intros [H _]. vm_compute in H. discriminate H.
  - reflexivity.
  - reflexivity.
  - intros p' c' H _. simpl in H. by apply lookup_singleton_Some in H as [<- _].
Defined.

(** X17. An event whose pid no registered client holds is dropped as
    unhandled, before its reason is looked at, and reaches no client. *)
Theorem event_for_unknown_pid_dropped (P : Platform) (m : NMDHCPManagerPrivate)
    (options : gmap string GValue) (errno : Z) (ibuf pbuf : list Z) :
  get_option options "interface" = Some ibuf ->
  get_option options "pid" = Some pbuf ->
  ~ (fst (strtoul P (c_str pbuf) errno) = ULONG_MAX P /\
     snd (strtoul P (c_str pbuf) errno) = ERANGE) ->
  (forall p c, clients m !! p = Some c ->
               client_pid c <> to_int (fst (strtoul P (c_str pbuf) errno))) ->
  nm_dhcp_manager_handle_event P m options errno = Dropped (UnhandledEvent (c_str ibuf)).
Proof.
  intros Hi Hp Hok Hno.
  unfold nm_dhcp_manager_handle_event. rewrite Hi, Hp.
  destruct (strtoul P (c_str pbuf) errno) as [temp e]. simpl in *.
  destruct ((temp =? ULONG_MAX P) && (e =? ERANGE)) eqn:E.
  { apply andb_true_iff in E as [E1 E2]. apply Z.eqb_eq in E1, E2. tauto. }
  by rewrite (get_client_for_pid_none m _ Hno).
Qed.

Lemma event_for_unknown_pid_dropped_witness :
  nm_dhcp_manager_handle_event glibc64 eth0_manager (bound_event "9999") 0
  = Dropped (UnhandledEvent (c_str (bytes_of "eth0" ++ [0]))).
Proof.
  apply (event_for_unknown_pid_dropped glibc64 eth0_manager (bound_event "9999") 0
           (bytes_of "eth0" ++ [0]) (bytes_of "9999" ++ [0])).
  - reflexivity.
  - reflexivity.
  - intros [H _]. vm_compute in H. discriminate H.
  - intros p c H. simpl in H. apply lookup_singleton_Some in H as [_ <-].
    vm_compute. discriminate.
Defined.

(** X18. The handler does not clear errno before strtoul, yet what errno
    holds at entry decides nothing unless it is ERANGE: for any two entry
    values other than ERANGE the event has the same outcome. *)
Theorem event_outcome_ignores_stale_errno (P : Platform) (m : NMDHCPManagerPrivate)
    (options : gmap string GValue) (e1 e2 : Z) :
  e1 <> ERANGE -> e2 <> ERANGE ->
  nm_dhcp_manager_handle_event P m options e1
  = nm_dhcp_manager_handle_event P m options e2.
Proof.
  intros H1 H2. unfold nm_dhcp_manager_handle_event.
  destruct (get_option options "interface") as [ibuf|]; [|done].
  destruct (get_option options "pid") as [pbuf|]; [|done].
  destruct (strtoul_refusal_errno P (c_str pbuf) e1 H1) as [Hv1 Hr1].
  destruct (strtoul_refusal_errno P (c_str pbuf) e2 H2) as [Hv2 Hr2].
  destruct (strtoul P (c_str pbuf) e1) as [t1 x1].
  destruct (strtoul P (c_str pbuf) e2) as [t2 x2].
  simpl in *. rewrite Hr1, Hr2, Hv1, Hv2. done.
Qed.

Lemma event_outcome_ignores_stale_errno_witness :
  nm_dhcp_manager_handle_event glibc64 eth0_manager (bound_event "1234") 22
  = nm_dhcp_manager_handle_event glibc64 eth0_manager (bound_event "1234") 0.
Proof.
  apply (event_outcome_ignores_stale_errno glibc64 eth0_manager (bound_event "1234") 22 0);
    unfold ERANGE; lia.
Defined.

(** ** The hostname sent to the helper *)


(** X20. An event is delivered only when get_option finds all three of
    interface, pid and reason: with any of them missing from the table, of
    another type than a byte array, or boxing no array, no client receives
    the event. *)
Theorem event_missing_field_not_delivered (P : Platform) (m : NMDHCPManagerPrivate)
    (options : gmap string GValue) (errno : Z) :
  get_option options "interface" = None \/
  get_option options "pid" = None \/
  get_option options "reason" = None ->
  forall client reason,
    nm_dhcp_manager_handle_event P m options errno <> Delivered client reason.
Proof.
  intros Hmiss client reason. unfold nm_dhcp_manager_handle_event.
  destruct (get_option options "interface") as [ibuf|]; [|done].
  destruct (get_option options "pid") as [pbuf|]; [|done].
  destruct (get_option options "reason") as [rbuf|]; [by destruct Hmiss as [?|[?|?]]|].
  destruct (strtoul P (c_str pbuf) errno) as [temp e].
  destruct ((temp =? ULONG_MAX P) && (e =? ERANGE)); [done|].
  destruct (get_client_for_pid m (to_int temp)); [|done].
  by destruct (negb _).
Qed.

Lemma event_missing_field_not_delivered_witness :
  nm_dhcp_manager_handle_event glibc64 eth0_manager
    {[ "interface"%string := UCharArray (Some (bytes_of "eth0"));
       "pid"%string := UCharArray (Some (bytes_of "1234"));
       "reason"%string := OtherType ]} 0
  <> Delivered 5 "BOUND".
Proof.
  apply (event_missing_field_not_delivered glibc64 eth0_manager).
  right. right. reflexivity.
Defined.

(** ** Texts carried as byte arrays *)

Section Texts.

Lemma c_str_bytes_of (s : string) (rest : list Z) :
  ascii7 s -> c_str (List.map convert (bytes_of s) ++ 0 :: rest) = s.
Proof.
  unfold ascii7, bytes_of. induction s as [|a s IH]; simpl; [done|].
  intros Hall. apply Forall_cons in Hall as [Ha Hall].
  unfold code in Ha.
  assert (Hc : convert (Z.of_nat (nat_of_ascii a)) = Z.of_nat (nat_of_ascii a)).
  { unfold convert. rewrite Z.mod_small by lia.
    destruct (Z.of_nat (nat_of_ascii a) =? 0) eqn:E0; [lia|].
    destruct (Z.of_nat (nat_of_ascii a) >? 127) eqn:E1; [lia|done]. }
  rewrite Hc. destruct (Z.of_nat (nat_of_ascii a) =? 0) eqn:E0; [lia|].
  by rewrite Nat2Z.id, ascii_nat_embedding, IH.
Qed.

End Texts.

(** X21. A text of 7-bit characters without NUL that the table carries as a
    byte array comes out of get_option unchanged: the C string in the
    returned buffer is the text. *)
Theorem get_option_text_round_trip (hash : gmap string GValue) (key s : string) :
  hash !! key = Some (UCharArray (Some (bytes_of s))) ->
  ascii7 s ->
  c_str <$> get_option hash key = Some s.
Proof.
  intros Hk Hs. unfold get_option. rewrite Hk, garray_to_string_eq. simpl.
  by rewrite c_str_bytes_of.
Qed.

Lemma get_option_text_round_trip_witness :
  c_str <$> get_option (bound_event "1234") "interface" = Some "eth0"%string.
Proof.
  apply (get_option_text_round_trip (bound_event "1234") "interface" "eth0").
  - reflexivity.
  - unfold ascii7. repeat constructor; vm_compute; discriminate.
Defined.

(** ** dhcpcd: the helper's pid file *)

Section PidFile.

Lemma append_inj_l (p a b : string) : (p ++ a = p ++ b)%string -> a = b.
Proof. induction p as [|c p IH]; simpl; [done|]. intros [= H]. by apply IH. Qed.

Lemma append_length (a b : string) :
  String.length (a ++ b) = (String.length a + String.length b)%nat.
Proof. induction a as [|c a IH]; simpl; [done|]. by rewrite IH. Qed.

Lemma append_inj_r (s a b : string) : (a ++ s = b ++ s)%string -> a = b.
Proof.
  revert b. induction a as [|c a IH]; intros [|d b]; simpl; try done.
  - intros H. apply (f_equal String.length) in H.
    rewrite ?append_length in H. simpl in H. rewrite ?append_length in H. lia.
  - intros H. apply (f_equal String.length) in H.
    rewrite ?append_length in H. simpl in H. rewrite ?append_length in H. lia.
  - intros [= -> H]. by rewrite (IH b H).
Qed.

Lemma start_sets_pid_file (D : DhcpcdClient.InstallDirs) (B : BuildConfig)
      (iface : string) (binary_exists : bool) (spawn : option Z) :
  DhcpcdClient.pid_file
    (DhcpcdClient.priv_after
       (DhcpcdClient.real_ip4_start D B {| DhcpcdClient.pid_file := None |}
                                    iface binary_exists spawn))
  = Some (DhcpcdClient.LOCALSTATEDIR D ++ "/run/dhcpcd-" ++ iface ++ ".pid")%string.
Proof.
  unfold DhcpcdClient.real_ip4_start. simpl. by destruct binary_exists, spawn.
Qed.

End PidFile.

(** X22. Clients for different interfaces get different pid files. *)
Theorem dhcpcd_pid_file_per_interface (D : DhcpcdClient.InstallDirs) (B : BuildConfig)
    (iface1 iface2 : string) (found1 found2 : bool) (spawn1 spawn2 : option Z) :
  iface1 <> iface2 ->
  DhcpcdClient.pid_file
    (DhcpcdClient.priv_after
       (DhcpcdClient.real_ip4_start D B {| DhcpcdClient.pid_file := None |}
                                    iface1 found1 spawn1))
  <> DhcpcdClient.pid_file
       (DhcpcdClient.priv_after
          (DhcpcdClient.real_ip4_start D B {| DhcpcdClient.pid_file := None |}
                                       iface2 found2 spawn2)).
Proof.
  intros Hne. rewrite !start_sets_pid_file. intros [= H].
  apply append_inj_l, append_inj_l, append_inj_r in H. done.
Qed.

Lemma dhcpcd_pid_file_per_interface_witness :
  DhcpcdClient.pid_file
    (DhcpcdClient.priv_after
       (DhcpcdClient.real_ip4_start
          {| DhcpcdClient.LOCALSTATEDIR := "/var"; DhcpcdClient.LIBEXECDIR := "/usr/libexec" |}
          build {| DhcpcdClient.pid_file := None |} "eth0" true (Some 1234)))
  <> DhcpcdClient.pid_file
       (DhcpcdClient.priv_after
          (DhcpcdClient.real_ip4_start
             {| DhcpcdClient.LOCALSTATEDIR := "/var"; DhcpcdClient.LIBEXECDIR := "/usr/libexec" |}
             build {| DhcpcdClient.pid_file := None |} "eth1" true (Some 1300))).
Proof.
  apply (dhcpcd_pid_file_per_interface
           {| DhcpcdClient.LOCALSTATEDIR := "/var"; DhcpcdClient.LIBEXECDIR := "/usr/libexec" |}
           build "eth0" "eth1" true true (Some 1234) (Some 1300)).
  discriminate.
Defined.

(** X23. A dhcpcd client object can be started once only.  Whatever the
    first call met (even a missing binary or a failed spawn), it has set
    the pid file, real_stop does not reset it, and every later call returns
    -1 without stopping or spawning anything. *)
Theorem dhcpcd_start_only_once (D : DhcpcdClient.InstallDirs) (B : BuildConfig)
    (priv : DhcpcdClient.NMDHCPDhcpcdPrivate) (iface iface' : string)
    (binary_exists binary_exists' : bool) (spawn spawn' : option Z) :
  let first := DhcpcdClient.real_ip4_start D B priv iface binary_exists spawn in
  is_Some (DhcpcdClient.pid_file (DhcpcdClient.priv_after first)) /\
  DhcpcdClient.real_ip4_start D B (DhcpcdClient.priv_after first)
                              iface' binary_exists' spawn'
  = {| DhcpcdClient.priv_after := DhcpcdClient.priv_after first;
       DhcpcdClient.start_pid := -1;
       DhcpcdClient.actions := [] |}.
Proof.
  intros first.
  assert (Hset : is_Some (DhcpcdClient.pid_file (DhcpcdClient.priv_after first))).
  { subst first. unfold DhcpcdClient.real_ip4_start.
    destruct (DhcpcdClient.pid_file priv) as [f|] eqn:Hf; simpl; [by rewrite Hf|].
    by destruct binary_exists, spawn. }
  split; [done|]. destruct Hset as [f Hf].
  unfold DhcpcdClient.real_ip4_start at 1. by rewrite Hf.
Qed.

(** X24. A first start stops any helper left over under the interface's pid
    file before it spawns, spawns only when the binary exists, and hands
    the helper the interface as last argument; the stop that follows
    removes that same pid file, while a stop of a client never started
    removes no file. *)
Theorem dhcpcd_start_then_stop (D : DhcpcdClient.InstallDirs) (B : BuildConfig)
    (iface : string) (binary_exists : bool) (spawn : option Z) :
  let fresh := {| DhcpcdClient.pid_file := None |} in
  let file := (DhcpcdClient.LOCALSTATEDIR D ++ "/run/dhcpcd-" ++ iface ++ ".pid")%string in
  let o := DhcpcdClient.real_ip4_start D B fresh iface binary_exists spawn in
  DhcpcdClient.real_stop fresh = [DhcpcdClient.ParentStop] /\
  DhcpcdClient.real_stop (DhcpcdClient.priv_after o)
  = [DhcpcdClient.ParentStop; DhcpcdClient.RemoveFile file] /\
  (forall argv, In (DhcpcdClient.SpawnAsync argv) (DhcpcdClient.actions o) ->
     binary_exists = true /\ last argv = Some iface /\ head argv = Some (DHCPCD_PATH B) /\
     exists name rest,
       DhcpcdClient.actions o
       = DhcpcdClient.StopExisting file name :: DhcpcdClient.SpawnAsync argv :: rest) /\
  (binary_exists = false ->
   DhcpcdClient.start_pid o = -1 /\
   DhcpcdClient.actions o = [DhcpcdClient.WarnMissingBinary (DHCPCD_PATH B)]) /\
  (binary_exists = true -> DhcpcdClient.start_pid o = default 0 spawn).
Proof.
  intros fresh file o. split; [done|]. split.
  { unfold DhcpcdClient.real_stop. subst o fresh. by rewrite start_sets_pid_file. }
  subst o fresh. unfold DhcpcdClient.real_ip4_start. simpl.
  destruct binary_exists; simpl.
  - split; [|split; [done|by destruct spawn]].
    intros argv Hin.
    assert (Hargv : argv = [DHCPCD_PATH B; "-B"; "-K"; "-L"; "-c";
                            DhcpcdClient.ACTION_SCRIPT_PATH D; iface]%string).
    { destruct spawn; simpl in Hin; destruct Hin as [?|[?|[?|[]]]]; congruence. }
    subst argv. repeat split. destruct spawn; by eexists _, _.
  - split; [|split; [done|done]].
    intros argv [?|[]]. done.
Qed.

(** ** Each pair on its own *)

Section PairByPair.

Variable P : Platform.

Lemma to_int_range (z : Z) : - 2 ^ 31 <= to_int z < 2 ^ 31.
Proof.
  unfold to_int. pose proof (Z.mod_pos_bound (z + 2 ^ 31) (2 ^ 32) ltac:(lia)). lia.
Qed.

Lemma token_prefix_range (tok : string) (c : Z) :
  token_prefix P tok = Some c -> - 2 ^ 31 <= c < 2 ^ 31.
Proof.
  unfold token_prefix. destruct (strchr_cut tok "/") as [[addr cidr]|].
  - destruct (cidr_rejected P tok); [done|]. intros [= <-]. apply to_int_range.
  - intros [= <-]. lia.
Qed.

Lemma token_prefix_none (tok : string) :
  token_prefix P tok = None <-> is_Some (cidr_rejected P tok).
Proof.
  unfold token_prefix. destruct (cidr_rejected P tok) as [cidr|] eqn:Hc.
  - unfold cidr_rejected in Hc.
    destruct (strchr_cut tok "/") as [[? ?]|]; [|done]. split; [by eexists|done].
  - destruct (strchr_cut tok "/") as [[? ?]|]; split; try done; by intros [? ?].
Qed.

Lemma route_pair_log (st : State) (r0 r1 : string) :
  log (route_pair P st r0 r1) = log st ++ pair_log P (r0, r1).
Proof.
  unfold route_pair, pair_log, pair_warning, pair_default. simpl.
  destruct (cidr_rejected P r0) as [cidr|] eqn:Hc.
  { by rewrite (read_cidr_rejected _ _ _ Hc). }
  destruct (read_cidr_accepted _ _ Hc) as (c & -> & ->).
  destruct (inet_pton (dest_text r0)) as [a|]; simpl; [|done].
  destruct (inet_pton r1) as [g|]; simpl; [|done].
  destruct ((c =? 0) && (a =? 0)); simpl; [by rewrite app_nil_r|done].
Qed.

Lemma route_loop_log (l : list string) (st : State) :
  log (route_loop P l st) = log st ++ flat_map (pair_log P) (pairs_of l).
Proof.
  revert st. induction l as [|x|r0 r1 l IH] using pairs_ind; intros st;
    [by rewrite app_nil_r..|].
  simpl. by rewrite IH, route_pair_log, <- app_assoc.
Qed.

Lemma route_pair_gw_kept (st : State) (r0 r1 : string) :
  pair_default P (r0, r1) = false -> gwaddr (route_pair P st r0 r1) = gwaddr st.
Proof.
  unfold route_pair, pair_default. simpl.
  destruct (cidr_rejected P r0) as [cidr|] eqn:Hc.
  { by rewrite (read_cidr_rejected _ _ _ Hc). }
  destruct (read_cidr_accepted _ _ Hc) as (c & -> & ->).
  destruct (inet_pton (dest_text r0)) as [a|]; simpl; [|done].
  destruct (inet_pton r1) as [g|]; simpl; [|done].
  by intros ->.
Qed.

Lemma route_loop_gw_kept (l : list string) (st : State) :
  Forall (fun pr => pair_default P pr = false) (pairs_of l) ->
  gwaddr (route_loop P l st) = gwaddr st.
Proof.
  revert st. induction l as [|x|r0 r1 l IH] using pairs_ind; intros st Hall; [done..|].
  simpl in *. apply Forall_cons in Hall as [Hd Hall].
  by rewrite IH, route_pair_gw_kept.
Qed.

(** A pair the loop body skips adds its warning and nothing else. *)
Lemma invalid_pair_contribution (r0 r1 : string) :
  invalid_pair P r0 r1 ->
  pair_accepted P (r0, r1) = false /\
  pair_route P (r0, r1) = None /\
  pair_default P (r0, r1) = false /\
  exists w, pair_warning P (r0, r1) = Some w /\ pair_log P (r0, r1) = [w] /\
            is_warning w = true.
Proof.
  intros Hinv. unfold pair_accepted, pair_route, pair_default, pair_log, pair_warning. simpl.
  destruct (cidr_rejected P r0) as [cidr|] eqn:Hc.
  { rewrite (proj2 (token_prefix_none r0)) by (rewrite Hc; by eexists).
    repeat split. by eexists. }
  destruct (read_cidr_accepted _ _ Hc) as (c & -> & _).
  destruct (inet_pton (dest_text r0)) as [a|] eqn:Ha.
  2:{ repeat split. by eexists. }
  destruct (inet_pton r1) as [g|] eqn:Hg.
  2:{ repeat split. by eexists. }
  destruct Hinv as [[? ?]|[?|?]]; congruence.
Qed.

(** A pair the loop body does not skip is accepted and adds no warning. *)
Lemma valid_pair_contribution (r0 r1 : string) :
  ~ invalid_pair P r0 r1 ->
  pair_accepted P (r0, r1) = true /\
  pair_warning P (r0, r1) = None /\
  Forall (fun e => is_warning e = false) (pair_log P (r0, r1)).
Proof.
  intros Hval. unfold pair_accepted, pair_log, pair_warning, pair_default, invalid_pair in *.
  simpl.
  destruct (cidr_rejected P r0) as [cidr|] eqn:Hc.
  { destruct Hval. left. by eexists. }
  destruct (read_cidr_accepted _ _ Hc) as (c & -> & _).
  destruct (inet_pton (dest_text r0)) as [a|]; [|tauto].
  destruct (inet_pton r1) as [g|]; [|tauto].
  repeat split. destruct ((c =? 0) && (a =? 0)); repeat constructor.
Qed.

Lemma pair_route_prefix (pr : string * string) (r : NMIP4Route) :
  pair_route P pr = Some r ->
  exists c, token_prefix P pr.1 = Some c /\ route_prefix r = to_uint32 c /\
            (prefix_in_range r <-> 0 <= c <= 32).
Proof.
  unfold pair_route. destruct (token_prefix P pr.1) as [c|] eqn:Hc; [|done].
  destruct (inet_pton (dest_text pr.1)) as [a|]; [|done].
  destruct (inet_pton pr.2) as [g|]; [|done].
  destruct ((c =? 0) && (a =? 0)); [done|]. intros [= <-].
  exists c. split; [done|]. split; [done|].
  apply token_prefix_range in Hc. unfold prefix_in_range, to_uint32. simpl.
  destruct (Z_lt_le_dec c 0) as [Hneg|Hpos].
  - replace (c mod 2 ^ 32) with (c + 2 ^ 32); [lia|].
    apply (Z.mod_unique _ _ (-1)); lia.
  - rewrite Z.mod_small by lia. done.
Qed.

Lemma pair_route_stored (pr : string * string) (c a g : Z) :
  token_prefix P pr.1 = Some c ->
  inet_pton (dest_text pr.1) = Some a ->
  inet_pton pr.2 = Some g ->
  ~ (c = 0 /\ a = 0) ->
  pair_route P pr
  = Some {| route_dest := a; route_prefix := to_uint32 c; route_next_hop := g |}.
Proof.
  intros Hc Ha Hg Hnd. unfold pair_route. rewrite Hc, Ha, Hg.
  destruct ((c =? 0) && (a =? 0)) eqn:E; [|done].
  apply andb_true_iff in E as [E1 E2]. apply Z.eqb_eq in E1, E2. tauto.
Qed.

End PairByPair.

(** C8, as the code has it. The function treats the pairs one by one and
    in order: its log is the pairs' contributions one after the other, the
    routes it stores are those of the accepted pairs behind the routes
    already there, have_routes tells whether some pair was accepted, and the
    gateway cell is left alone when no accepted pair is a default route.  A
    pair whose cidr suffix makes strtol report an error, or whose
    destination or next hop inet_pton refuses, adds exactly one warning,
    naming the offending text, and nothing else; a pair without such a fault
    is accepted and adds no warning.  A cidr suffix that is merely not a
    number is not such a fault. *)
Theorem pairs_contribute_independently (P : Platform) (options : gmap string string)
    (cfg : NMIP4Config) (gw : Z) (str : string) :
  lookup_routes_option options = Some str ->
  Nat.Even (List.length (g_strsplit str " ")) ->
  log (real_ip4_process_classless_routes P options cfg gw)
  = flat_map (pair_log P) (pairs_of (g_strsplit str " ")) /\
  config_routes (ip4_config (real_ip4_process_classless_routes P options cfg gw))
  = config_routes cfg ++ omap (pair_route P) (pairs_of (g_strsplit str " ")) /\
  have_routes (real_ip4_process_classless_routes P options cfg gw)
  = existsb (pair_accepted P) (pairs_of (g_strsplit str " ")) /\
  (Forall (fun pr => pair_default P pr = false) (pairs_of (g_strsplit str " ")) ->
   gwaddr (real_ip4_process_classless_routes P options cfg gw) = gw) /\
  (forall r0 r1,
     invalid_pair P r0 r1 ->
     pair_accepted P (r0, r1) = false /\
     pair_route P (r0, r1) = None /\
     pair_default P (r0, r1) = false /\
     exists w, pair_warning P (r0, r1) = Some w /\ pair_log P (r0, r1) = [w] /\
               is_warning w = true) /\
  (forall r0 r1,
     ~ invalid_pair P r0 r1 ->
     pair_accepted P (r0, r1) = true /\
     pair_warning P (r0, r1) = None /\
     Forall (fun e => is_warning e = false) (pair_log P (r0, r1))).
Proof.
  intros Hstr Hev.
  rewrite (process_is_loop P options cfg gw str Hstr Hev).
  split; [apply route_loop_log|].
  split; [apply route_loop_config|].
  split; [apply route_loop_have_routes|].
  split; [apply route_loop_gw_kept|].
  split; [apply invalid_pair_contribution|apply valid_pair_contribution].
Qed.

Lemma pairs_contribute_independently_witness :
  log (real_ip4_process_classless_routes glibc64
         (classless "10.0.0.0/8 192.0.2.1 300.1.1.1/24 192.0.2.9 172.16.0.0/12 192.0.2.2")
         empty_config 0)
  = flat_map (pair_log glibc64)
      (pairs_of
         (g_strsplit "10.0.0.0/8 192.0.2.1 300.1.1.1/24 192.0.2.9 172.16.0.0/12 192.0.2.2"
                     " ")).
Proof.
  apply (pairs_contribute_independently glibc64
           (classless "10.0.0.0/8 192.0.2.1 300.1.1.1/24 192.0.2.9 172.16.0.0/12 192.0.2.2")
           empty_config 0
           "10.0.0.0/8 192.0.2.1 300.1.1.1/24 192.0.2.9 172.16.0.0/12 192.0.2.2").
  - reflexivity.
  - exists 3%nat. reflexivity.
Defined.

(** C8 as stated fails: a cidr suffix that is not a number is not noticed.
    "10.0.0.0/8x 192.0.2.1" is accepted as 10.0.0.0/8 without a warning,
    whether or not the C library sets EINVAL when nothing converts, and
    where it does not, "10.0.0.0/abc 192.0.2.1" is accepted as 10.0.0.0/0. *)
Lemma unparsable_cidr_not_skipped :
  real_ip4_process_classless_routes glibc64 (classless "10.0.0.0/8x 192.0.2.1")
                                    empty_config 0
  = {| have_routes := true;
       ip4_config := {| config_routes := [route_10_8] |};
       gwaddr := 0;
       log := [InfoRoute "10.0.0.0" 8 "192.0.2.1"] |} /\
  real_ip4_process_classless_routes {| data_model := LP64; noconv_einval := true |}
                                    (classless "10.0.0.0/8x 192.0.2.1") empty_config 0
  = {| have_routes := true;
       ip4_config := {| config_routes := [route_10_8] |};
       gwaddr := 0;
       log := [InfoRoute "10.0.0.0" 8 "192.0.2.1"] |} /\
  real_ip4_process_classless_routes glibc64 (classless "10.0.0.0/abc 192.0.2.1")
                                    empty_config 0
  = {| have_routes := true;
       ip4_config := {| config_routes :=
         [ {| route_dest := 167772160; route_prefix := 0; route_next_hop := 3221225985 |} ] |};
       gwaddr := 0;
       log := [InfoRoute "10.0.0.0" 0 "192.0.2.1"] |}.
Proof. repeat split; reflexivity. Qed.

(** C9, as the code has it. The routes the function stores are, in order,
    those of the accepted pairs that are not default routes, each with the
    prefix its own destination token stands for: 32 without a /cidr part,
    else the int strtol reads after the slash, handed over as a guint32.
    A token stands for no prefix only when strtol reports an error on its
    cidr part; the value read is not compared with 0 or 32, so a pair with
    valid addresses is stored whatever prefix its token stands for, and a
    stored prefix lies in [0,32] exactly when the token's does. *)
Theorem stored_prefix_is_own_token_prefix (P : Platform) (options : gmap string string)
    (cfg : NMIP4Config) (gw : Z) (str : string) :
  lookup_routes_option options = Some str ->
  config_routes (ip4_config (real_ip4_process_classless_routes P options cfg gw))
  = config_routes cfg ++
    (if Nat.even (List.length (g_strsplit str " "))
     then omap (pair_route P) (pairs_of (g_strsplit str " "))
     else []) /\
  (forall pr r,
     pair_route P pr = Some r ->
     exists c, token_prefix P pr.1 = Some c /\ route_prefix r = to_uint32 c /\
               (prefix_in_range r <-> 0 <= c <= 32)) /\
  (forall pr c a g,
     token_prefix P pr.1 = Some c ->
     inet_pton (dest_text pr.1) = Some a ->
     inet_pton pr.2 = Some g ->
     ~ (c = 0 /\ a = 0) ->
     pair_route P pr
     = Some {| route_dest := a; route_prefix := to_uint32 c; route_next_hop := g |}) /\
  (forall tok, token_prefix P tok = None <-> is_Some (cidr_rejected P tok)) /\
  (forall tok, strchr_cut tok "/" = None -> token_prefix P tok = Some 32).
Proof.
  intros Hstr. split.
  { rewrite (process_cases P options cfg gw str Hstr).
    destruct (Nat.even (List.length (g_strsplit str " "))).
    - by rewrite route_loop_config.
    - simpl. by rewrite app_nil_r. }
  split; [apply pair_route_prefix|].
  split; [apply pair_route_stored|].
  split; [apply token_prefix_none|].
  intros tok Hno. unfold token_prefix. by rewrite Hno.
Qed.

Lemma stored_prefix_is_own_token_prefix_witness :
  config_routes (ip4_config (real_ip4_process_classless_routes glibc64
     (classless "10.0.0.0/33 192.0.2.1 172.16.0.0 192.0.2.2") empty_config 0))
  = config_routes empty_config ++
    (if Nat.even (List.length (g_strsplit "10.0.0.0/33 192.0.2.1 172.16.0.0 192.0.2.2" " "))
     then omap (pair_route glibc64)
            (pairs_of (g_strsplit "10.0.0.0/33 192.0.2.1 172.16.0.0 192.0.2.2" " "))
     else []).
Proof.
  apply (stored_prefix_is_own_token_prefix glibc64
           (classless "10.0.0.0/33 192.0.2.1 172.16.0.0 192.0.2.2") empty_config 0
           "10.0.0.0/33 192.0.2.1 172.16.0.0 192.0.2.2").
  reflexivity.
Defined.

(** C9 as stated fails: the pair "10.0.0.0/33 192.0.2.1", whose cidr part
    reads as 33, is not rejected.  The function returns TRUE, takes one
    route into the configuration and reports it itself as 10.0.0.0/33. *)
Lemma cidr_33_pair_accepted :
  token_prefix glibc64 "10.0.0.0/33" = Some 33 /\
  cidr_rejected glibc64 "10.0.0.0/33" = None /\
  have_routes (real_ip4_process_classless_routes glibc64
                 (classless "10.0.0.0/33 192.0.2.1") empty_config 0) = true /\
  log (real_ip4_process_classless_routes glibc64
         (classless "10.0.0.0/33 192.0.2.1") empty_config 0)
  = [InfoRoute "10.0.0.0" 33 "192.0.2.1"] /\
  List.length (config_routes (ip4_config
     (real_ip4_process_classless_routes glibc64
        (classless "10.0.0.0/33 192.0.2.1") empty_config 0))) = 1%nat.
Proof. repeat split; reflexivity. Qed.
